(** * Lazy-portfolio simulator: return aggregation, growth simulation, statistics

    A shallow embedding of [csv_data_reader.py] ([load_ticker_data],
    [get_ticker_data_for_period], [get_portfolio_data]), of
    [portfolio_definitions.py] ([file_mapping], [portfolios]) and of the
    numeric part of [app.py] ([simulate_growth] and the statistics block of
    [main]).

    pandas objects are modelled by what the code observes of them: a
    DataFrame is its index together with its columns, a missing cell (NaN
    produced by a join or by [pct_change]) is [None], and the reductions
    [sum(axis=1)], [cumsum], [cumprod], [cummax] and [min] skip missing
    values the way pandas does by default. *)

From Stdlib Require Import ZArith QArith List Bool String Lia Lqa.
From Stdlib Require Import Sorted Permutation.
From Stdlib Require Import PrimFloat Uint63.
From Stdlib Require FloatAxioms.
Import ListNotations.

Set Implicit Arguments.
Open Scope Z_scope.

(** ** Numbers

    The program computes on Python/NumPy [float]s.  Every function below is
    written once over the interface [Num]; it is run on IEEE binary64
    numbers ([NumFloat], what the interpreter computes) and on exact
    rationals ([NumQ], the arithmetic the specification's formulas speak
    about). *)

Class Num (F : Type) : Type := {
  of_Z : Z -> F;              (* an int literal or count used as a float *)
  fadd : F -> F -> F;
  fsub : F -> F -> F;
  fmul : F -> F -> F;
  fdiv : F -> F -> F;
  feqb : F -> F -> bool;      (* == *)
  fltb : F -> F -> bool;      (* <  *)
  fisnan : F -> bool          (* pandas' isna on a float *)
}.

Definition fzero {F} `{Num F} : F := of_Z 0.
Definition fone {F} `{Num F} : F := of_Z 1.

(** A decimal literal of the source such as [0.60]: the number nearest to
    60/100.  Both 60 and 100 are exact in binary64 and division rounds
    correctly, so on floats this is the literal's value. *)
Definition lit {F} `{Num F} (q : Q) : F :=
  fdiv (of_Z (Qnum q)) (of_Z (Zpos (Qden q))).

(** An int used as a float.  The conversion goes through a 63-bit
    integer and is Python's for |z| < 2^63; it is applied to the literals
    of the source and to row counts only. *)
Definition float_of_Z (z : Z) : float :=
  match z with
  | Z0 => PrimFloat.zero
  | Zpos _ => PrimFloat.of_uint63 (Uint63.of_Z z)
  | Zneg p => PrimFloat.opp (PrimFloat.of_uint63 (Uint63.of_Z (Zpos p)))
  end.

#[export] Instance NumFloat : Num float := {
  of_Z := float_of_Z;
  fadd := PrimFloat.add;
  fsub := PrimFloat.sub;
  fmul := PrimFloat.mul;
  fdiv := PrimFloat.div;
  feqb := PrimFloat.eqb;
  fltb := PrimFloat.ltb;
  fisnan := PrimFloat.is_nan
}.

#[export] Instance NumQ : Num Q := {
  of_Z := inject_Z;
  fadd := Qplus;
  fsub := Qminus;
  fmul := Qmult;
  fdiv := Qdiv;
  feqb := Qeq_bool;
  fltb := fun x y => negb (Qle_bool y x);
  fisnan := fun _ => false
}.

(** ** Timestamps

    Every index value is a [pd.Timestamp] at midnight (the CSV dates are
    parsed with [%m/%d/%y]), so a timestamp is its calendar date and the
    order of timestamps is the lexicographic order of (year, month, day). *)

Record Timestamp : Set := mkTimestamp { year : Z; month : Z; day : Z }.

Definition ts_compare (a b : Timestamp) : comparison :=
  match year a ?= year b with
  | Eq => match month a ?= month b with
          | Eq => day a ?= day b
          | c => c
          end
  | c => c
  end.

Definition ts_eqb (a b : Timestamp) : bool :=
  match ts_compare a b with Eq => true | _ => false end.
Definition ts_ltb (a b : Timestamp) : bool :=
  match ts_compare a b with Lt => true | _ => false end.
Definition ts_leb (a b : Timestamp) : bool :=
  match ts_compare a b with Gt => false | _ => true end.

(** [pd.Timestamp(year, month + 1, day=1)], or January of the next year
    after December: the branch at app.py:56-59. *)
Definition first_of_next_month (t : Timestamp) : Timestamp :=
  if month t =? 12
  then mkTimestamp (year t + 1) 1 1
  else mkTimestamp (year t) (month t + 1) 1.

(** [t + pd.DateOffset(months=1)].  The code applies it to first-of-month
    timestamps only, where no day has to be clipped to the month's end. *)
Definition plus_one_month (t : Timestamp) : Timestamp :=
  if month t =? 12
  then mkTimestamp (year t + 1) 1 (day t)
  else mkTimestamp (year t) (month t + 1) (day t).

(** ** Outcomes of a call *)

Inductive Exn : Set := IndexError.

Inductive Outcome (A : Type) : Type :=
| Returned (a : A)
| Raised (e : Exn).
Arguments Returned {A} a.
Arguments Raised {A} e.

(** ** List helpers standing for pandas/NumPy primitives *)

Section Columns.
Context {A : Type}.

(** [col.iloc[i] = v] on a column that has a row [i]. *)
Fixpoint list_set (i : nat) (v : A) (l : list A) : list A :=
  match l, i with
  | [], _ => []
  | _ :: t, O => v :: t
  | x :: t, S j => x :: list_set j v t
  end.

(** [np.cumsum] / [np.cumprod]: out[0] = x[0], out[i] = op out[i-1] x[i]. *)
Fixpoint accumulate_from (op : A -> A -> A) (acc : A) (xs : list A) : list A :=
  match xs with
  | [] => []
  | x :: t => op acc x :: accumulate_from op (op acc x) t
  end.

Definition accumulate (op : A -> A -> A) (xs : list A) : list A :=
  match xs with
  | [] => []
  | x :: t => x :: accumulate_from op x t
  end.
End Columns.

Section Model.
Context {F : Type} `{NF : Num F}.

(** A cell of a float column; [None] is a missing value. *)
Definition Cell : Type := option F.

(** pandas' [Series.cumsum()] / [cumprod()] with the default [skipna]:
    missing entries are replaced by the neutral element, the array is
    accumulated, and the missing positions are put back. *)
Definition pandas_cum (op : F -> F -> F) (neutral : F) (xs : list F) : list F :=
  let filled := map (fun x => if fisnan x then neutral else x) xs in
  map (fun p => if fisnan (fst p) then fst p else snd p)
      (combine xs (accumulate op filled)).

Definition cumsum : list F -> list F := pandas_cum fadd fzero.
Definition cumprod : list F -> list F := pandas_cum fmul fone.

(** *** The frame returned by [get_portfolio_data] *)

Record PortfolioRow : Type := mkPortfolioRow {
  row_date : Timestamp;
  weighted : list Cell;          (* the [<ticker>_weighted] columns, in order *)
  portfolio_return : F;
  cumulative_return : F
}.

Definition PortfolioData : Type := list PortfolioRow.

(** *** [simulate_growth] (app.py:33-90) *)

Record Investments : Type := mkInvestments {
  index : list Timestamp;
  ret : list F;                      (* column 'return' *)
  contribution : list F;
  cumulative_contribution : list F;
  portfolio_value : list F
}.

(** [investments.loc[d, 'contribution'] = v]: every row labelled [d]. *)
Definition loc_set (idx : list Timestamp) (d : Timestamp) (v : F)
           (col : list F) : list F :=
  map (fun p => if ts_eqb (fst p) d then v else snd p) (combine idx col).

(** [investments.index[(index >= lo) & (index < hi)]]. *)
Definition index_between (idx : list Timestamp) (lo hi : Timestamp)
  : list Timestamp :=
  filter (fun d => ts_leb lo d && ts_ltb d hi) idx.

(** One pass of the body of the [while] loop at app.py:53-72: the new
    contribution column and the next [current_date]. *)
Definition contribution_step (idx : list Timestamp) (first : Timestamp)
           (monthly_contribution : F) (current_date : Timestamp)
           (col : list F) : list F * Timestamp :=
  let next_month := first_of_next_month current_date in
  let month_dates := index_between idx next_month (plus_one_month next_month) in
  let col' :=
    match month_dates with
    | d :: _ => if negb (ts_eqb d first)
                then loc_set idx d monthly_contribution col
                else col
    | [] => col
    end in
  (col', plus_one_month next_month).

(** The [while current_date <= end_date] loop, with its iterations bounded
    by [fuel]. *)
Fixpoint contribution_loop (fuel : nat) (idx : list Timestamp)
         (first end_date : Timestamp) (monthly_contribution : F)
         (current_date : Timestamp) (col : list F) : list F :=
  match fuel with
  | O => col
  | S fuel' =>
      if ts_leb current_date end_date
      then let '(col', next) :=
             contribution_step idx first monthly_contribution current_date col in
           contribution_loop fuel' idx first end_date monthly_contribution next col'
      else col
  end.

Definition month_number (t : Timestamp) : Z := 12 * year t + month t.

(** Enough iterations for the loop to leave through its condition (see
    [contribution_loop_fuel]). *)
Definition loop_fuel (first end_date : Timestamp) : nat :=
  S (Z.to_nat (month_number end_date - month_number first)).

(** One pass of [for i in range(len(investments))] at app.py:81-88; the
    state is the running [value] and the 'portfolio_value' column. *)
Definition value_step (rets contribs : list F) (st : F * list F) (i : nat)
  : F * list F :=
  let '(value, pv) := st in
  let value' :=
    if (0 <? i)%nat
    then fadd (fmul value (fadd fone (nth i rets fzero))) (nth i contribs fzero)
    else value in
  (value', list_set i value' pv).

Definition simulate_growth (portfolio_data : option PortfolioData)
           (initial_investment monthly_contribution : F)
  : Outcome (option Investments) :=
  match portfolio_data with
  | None => Returned None
  | Some data =>
      let idx := map row_date data in
      let returns := map portfolio_return data in
      let col0 := map (fun _ => fzero) idx in
      match idx with
      | [] => Raised IndexError      (* investments.iloc[0, ...] on no rows *)
      | first :: _ =>
          let col1 := list_set 0 initial_investment col0 in
          let end_date := last idx first in
          let col2 := contribution_loop (loop_fuel first end_date) idx first
                        end_date monthly_contribution first col1 in
          let n := List.length idx in
          let pv := snd (fold_left (value_step returns col2) (seq 0 n)
                                   (initial_investment, map (fun _ => fzero) idx)) in
          Returned (Some (mkInvestments idx returns col2 (cumsum col2) pv))
      end
  end.

End Model.

(** ** [portfolio_definitions.py] *)

Open Scope string_scope.

Definition file_mapping : list (string * string) :=
  [ ("VT",   "HistoricalPrices_VT.csv");
    ("BND",  "HistoricalPrices_VBTLX.csv");
    ("VTI",  "HistoricalPrices_VTSAX.csv");
    ("VXUS", "HistoricalPrices_VTIAX.csv");
    ("TIP",  "HistoricalPrices_VAIPX.csv");
    ("ITOT", "HistoricalPrices_VTSAX.csv");
    ("IXUS", "HistoricalPrices_VTIAX.csv") ].

(** A portfolio maps tickers to weights; the weights are kept as the
    decimal literals the source writes and become numbers through [lit]. *)
Definition Portfolio : Type := list (string * Q).

Definition portfolios : list (string * Portfolio) :=
  [ ("Two-fund Portfolio",
      [ ("VT", 0.60%Q); ("BND", 0.40%Q) ]);
    ("Taylor Larimore's Three-Fund Portfolio",
      [ ("VTI", 0.34%Q); ("VXUS", 0.33%Q); ("BND", 0.33%Q) ]);
    ("Scott Burns' Margarita Portfolio",
      [ ("ITOT", 0.34%Q); ("IXUS", 0.33%Q); ("TIP", 0.33%Q) ]);
    ("Rick Ferri's Lazy Three-Fund Portfolio",
      [ ("VTI", 0.40%Q); ("VXUS", 0.20%Q); ("BND", 0.40%Q) ]) ].

(** [d[key]] guarded by [key in d] on a dict with string keys. *)
Fixpoint dict_get {V : Type} (key : string) (d : list (string * V)) : option V :=
  match d with
  | [] => None
  | (k, v) :: rest => if String.eqb k key then Some v else dict_get key rest
  end.

Close Scope string_scope.

(** ** [csv_data_reader.py] *)

Section Reader.
Context {F : Type} `{NF : Num F}.

(** The frame [load_ticker_data] returns, reduced to the column used
    afterwards: the rows in ascending date order with their
    'daily_return' (missing on the first row). *)
Definition TickerData : Type := list (Timestamp * @Cell F).

(** The content of the data directory: for a file name, the (Date, Close)
    rows that [pd.read_csv] and the date parsing give, in file order, or
    [None] when the file does not exist or reading or parsing it raises. *)
Definition DataDir : Type := string -> option (list (Timestamp * F)).

(** [df.sort_index()]: the rows in ascending date order, by insertion.
    Rows that bear the same date stay in file order here.  pandas sorts
    with its default [kind='quicksort'], which is not stable, so the code
    may leave such rows in another order; the order of rows with distinct
    dates is the same.  What is stated below either does not depend on the
    order of rows with equal dates, or assumes a file that lists no date
    twice. *)
Fixpoint insert_row (r : Timestamp * F) (rows : list (Timestamp * F))
  : list (Timestamp * F) :=
  match rows with
  | [] => [r]
  | x :: t => if ts_ltb (fst x) (fst r)
              then x :: insert_row r t
              else r :: x :: t
  end.

Definition sort_index (rows : list (Timestamp * F)) : list (Timestamp * F) :=
  fold_right insert_row [] rows.

(** [Series.pct_change()] on closes that are all present:
    close / previous close - 1, missing on the first row. *)
Fixpoint pct_change_from (prev : F) (closes : list F) : list (@Cell F) :=
  match closes with
  | [] => []
  | c :: t => Some (fsub (fdiv c prev) fone) :: pct_change_from c t
  end.

Definition pct_change (closes : list F) : list (@Cell F) :=
  match closes with
  | [] => []
  | c :: t => None :: pct_change_from c t
  end.

Definition load_ticker_data (data_dir : DataDir) (ticker : string)
  : option TickerData :=
  match dict_get ticker file_mapping with
  | None => None                       (* ticker not in file_mapping *)
  | Some filename =>
      match data_dir filename with
      | None => None                   (* file not found, or an exception *)
      | Some rows =>
          let df := sort_index rows in
          Some (combine (map fst df) (pct_change (map snd df)))
      end
  end.

Definition get_ticker_data_for_period (data_dir : DataDir) (ticker : string)
           (start_date end_date : option Timestamp) : option TickerData :=
  match load_ticker_data data_dir ticker with
  | None => None
  | Some df =>
      let df1 := match start_date with
                 | Some s => filter (fun r => ts_leb s (fst r)) df
                 | None => df
                 end in
      let df2 := match end_date with
                 | Some e => filter (fun r => ts_leb (fst r) e) df1
                 | None => df1
                 end in
      Some df2
  end.

(** The frame under construction in [get_portfolio_data]: one row per
    index entry, holding the weighted columns joined so far. *)
Definition Joined : Type := list (Timestamp * list (@Cell F)).

(** [result.join(other)] with pandas' default [how='left'] on the index:
    the rows of [result] are kept in order; each takes the value of every
    row of [other] with the same date, or a missing value when [other]
    has none. *)
Definition left_join (result : Joined) (other : TickerData) : Joined :=
  flat_map
    (fun row =>
       match filter (fun r => ts_eqb (fst r) (fst row)) other with
       | [] => [ (fst row, snd row ++ [None]) ]
       | matches => map (fun r => (fst row, snd row ++ [snd r])) matches
       end)
    result.

(** [ticker_data['daily_return'] * weight]. *)
Definition weighted_column (weight : Q) (ticker_data : TickerData) : TickerData :=
  map (fun r => (fst r, option_map (fun x => fmul x (lit weight)) (snd r)))
      ticker_data.

(** The body of [for ticker, weight in portfolio.items()]
    (csv_data_reader.py:102-117). *)
Definition join_ticker (data_dir : DataDir)
           (start_date end_date : option Timestamp)
           (result : option Joined) (item : string * Q) : option Joined :=
  match get_ticker_data_for_period data_dir (fst item) start_date end_date with
  | None => result                                        (* continue *)
  | Some ticker_data =>
      let col := weighted_column (snd item) ticker_data in
      match result with
      | None => Some (map (fun r => (fst r, [snd r])) col)
      | Some res => Some (left_join res col)
      end
  end.

(** [DataFrame.sum(axis=1)]: missing cells count as 0. *)
Definition cell_value (c : @Cell F) : F :=
  match c with
  | None => fzero
  | Some x => if fisnan x then fzero else x
  end.

Definition row_sum (cells : list (@Cell F)) : F :=
  fold_left fadd (map cell_value cells) fzero.

(** [get_portfolio_data] after the lookup of the portfolio's definition
    (csv_data_reader.py:98-128). *)
Definition portfolio_frame (data_dir : DataDir) (portfolio : Portfolio)
           (start_date end_date : option Timestamp) : option (@PortfolioData F) :=
  match fold_left (join_ticker data_dir start_date end_date) portfolio None with
  | None => None
  | Some rows =>
      let returns := map (fun row => row_sum (snd row)) rows in
      let cumulative :=
        map (fun c => fmul c (of_Z 100)) (cumprod (map (fadd fone) returns)) in
      Some (map (fun p =>
                   mkPortfolioRow (fst (fst (fst p))) (snd (fst (fst p)))
                                  (snd (fst p)) (snd p))
                (combine (combine rows returns) cumulative))
  end.

Definition get_portfolio_data (data_dir : DataDir) (portfolio_name : string)
           (start_date end_date : option Timestamp) : option (@PortfolioData F) :=
  match dict_get portfolio_name portfolios with
  | None => None                       (* portfolio not found *)
  | Some portfolio => portfolio_frame data_dir portfolio start_date end_date
  end.

End Reader.

(** ** The drawdown of the statistics block (app.py:345) *)

Section Drawdown.
Context {F : Type} `{NF : Num F}.

Definition fmax (a b : F) : F := if fltb a b then b else a.
Definition fmin (a b : F) : F := if fltb b a then b else a.

(** [Series.cummax()]: the running maximum of the values present so far;
    a missing entry stays missing and leaves the maximum unchanged. *)
Fixpoint cummax_from (m : option F) (xs : list F) : list F :=
  match xs with
  | [] => []
  | x :: t =>
      if fisnan x then x :: cummax_from m t
      else let m' := match m with
                     | None => x
                     | Some y => fmax y x
                     end in
           m' :: cummax_from (Some m') t
  end.

Definition cummax (xs : list F) : list F := cummax_from None xs.

(** [Series.min()]: the least value present; missing when there is none. *)
Definition min_step (acc : @Cell F) (x : F) : @Cell F :=
  if fisnan x then acc
  else match acc with
       | None => Some x
       | Some m => Some (fmin m x)
       end.

Definition series_min (xs : list F) : @Cell F :=
  fold_left min_step xs None.

(** [(cum / cum.cummax() - 1).min()] (app.py:345). *)
Definition drawdowns (cum : list F) : list F :=
  map (fun p => fsub (fdiv (fst p) (snd p)) fone) (combine cum (cummax cum)).

Definition max_drawdown (cum : list F) : @Cell F :=
  series_min (drawdowns cum).

End Drawdown.

(** ** The statistics block of [main] (app.py:340-345)

    Besides arithmetic, the block uses a square root, a power and the
    not-a-number value that pandas returns for an undefined statistic. *)

Class Libm (F : Type) : Type := {
  fnan : F;                   (* np.nan *)
  fsqrt : F -> F;             (* np.sqrt *)
  fpow : F -> positive -> F   (* x ** n for a positive int n *)
}.

(** [x ** n] by squaring.  NumPy calls the C library's [pow], whose result
    can differ from this product in the last binary places; no statement
    below depends on those. *)
Fixpoint float_pow (x : float) (n : positive) : float :=
  match n with
  | xH => x
  | xO p => let y := float_pow x p in PrimFloat.mul y y
  | xI p => let y := float_pow x p in PrimFloat.mul x (PrimFloat.mul y y)
  end.

#[export] Instance LibmFloat : Libm float := {
  fnan := PrimFloat.nan;
  fsqrt := PrimFloat.sqrt;
  fpow := float_pow
}.

Section Statistics.
Context {F : Type} `{NF : Num F} `{LF : Libm F}.

(** The values of a series that are present, and the sum pandas takes
    over them ([nansum]).  NumPy adds a long array in blocks; the sum is
    taken here from the left, which can differ in the last binary places
    only. *)
Definition present (xs : list F) : list F :=
  filter (fun x => negb (fisnan x)) xs.

Definition nansum (xs : list F) : F :=
  fold_left fadd (present xs) fzero.

(** [Series.mean()]: the sum of the values present over their count, and
    missing when there is none. *)
Definition mean (xs : list F) : F :=
  let count := Z.of_nat (List.length (present xs)) in
  if count =? 0 then fnan else fdiv (nansum xs) (of_Z count).

(** [Series.std()]: the sample standard deviation ([ddof=1]).  pandas
    sets both the count and the divisor to NaN when the count does not
    exceed [ddof]. *)
Definition std (xs : list F) : F :=
  let count := Z.of_nat (List.length (present xs)) in
  let cnt := if count <=? 1 then fnan else of_Z count in
  let d := if count <=? 1 then fnan else of_Z (count - 1) in
  let avg := fdiv (nansum xs) cnt in
  let sqr := map (fun x => let e := fsub avg x in fmul e e) (present xs) in
  fsqrt (fdiv (fold_left fadd sqr fzero) d).

Record Stats : Type := mkStats {
  annual_return : F;
  annual_risk : F;
  sharpe : F;
  stat_max_drawdown : @Cell F
}.

Definition compute_stats (portfolio_data : @PortfolioData F) : Stats :=
  let returns := map portfolio_return portfolio_data in
  let annual_return := fsub (fpow (fadd fone (mean returns)) 252) fone in
  let annual_risk := fmul (std returns) (fsqrt (of_Z 252)) in
  let sharpe := if negb (feqb annual_risk (of_Z 0))
                then fdiv annual_return annual_risk
                else of_Z 0 in
  mkStats annual_return annual_risk sharpe
          (max_drawdown (map cumulative_return portfolio_data)).

End Statistics.

(** ** Notions used in the statements *)

Section Notions.
Context {F : Type} `{NF : Num F}.

(** The state of the [for] loop after its first [k] passes. *)
Definition value_run (rets contribs : list F) (init : F) (n k : nat)
  : F * list F :=
  fold_left (value_step rets contribs) (seq 0 k)
            (init, repeat fzero n).

Definition grown (rets contribs pv : list F) (i : nat) : Prop :=
  nth i pv fzero =
  fadd (fmul (nth (i - 1) pv fzero) (fadd fone (nth i rets fzero)))
       (nth i contribs fzero).

(** The recurrence of the trajectory [inv] built from [data]. *)
Definition value_recurrence (data : @PortfolioData F) (init : F)
           (inv : @Investments F) : Prop :=
  index inv = map row_date data /\
  ret inv = map portfolio_return data /\
  List.length (portfolio_value inv) = List.length data /\
  nth 0 (portfolio_value inv) fzero = init /\
  forall i, (0 < i < List.length data)%nat ->
    nth i (portfolio_value inv) fzero =
    fadd (fmul (nth (i - 1) (portfolio_value inv) fzero)
               (fadd fone (nth i (ret inv) fzero)))
         (nth i (contribution inv) fzero).

Definition valid_month (t : Timestamp) : Prop := 1 <= month t <= 12.


(** The tickers of a portfolio whose data is available, in the
    portfolio's order, each with its rows in the date range. *)
Definition available (data_dir : @DataDir F)
           (start_date end_date : option Timestamp) (portfolio : Portfolio)
  : list ((string * Q) * @TickerData F) :=
  flat_map (fun item =>
              match get_ticker_data_for_period data_dir (fst item)
                                               start_date end_date with
              | None => []
              | Some ticker_data => [(item, ticker_data)]
              end)
           portfolio.

(** A ticker that can be loaded: it has an entry in [file_mapping] and
    the file named there can be read. *)
Definition loadable (data_dir : @DataDir F) (item : string * Q) : bool :=
  match dict_get (fst item) file_mapping with
  | None => false
  | Some filename =>
      match data_dir filename with
      | None => false
      | Some _ => true
      end
  end.

(** What [join_ticker] does with a ticker that has data. *)
Definition join_available (result : option (@Joined F))
           (av : (string * Q) * @TickerData F) : option (@Joined F) :=
  let col := weighted_column (snd (fst av)) (snd av) in
  match result with
  | None => Some (map (fun r => (fst r, [snd r])) col)
  | Some res => Some (left_join res col)
  end.

(** The cell that the available ticker [av] gives the row dated [d]: one
    of its weighted returns on [d], or, when the ticker has no row on
    [d], a missing value. *)
Definition cell_of (d : Timestamp) (cell : @Cell F)
           (av : (string * Q) * @TickerData F) : Prop :=
  (exists c, In (d, c) (snd av) /\
             cell = option_map (fun x => fmul x (lit (snd (fst av)))) c)
  \/ (~ In d (map fst (snd av)) /\ cell = None).

(** The same for the ticker of [item], whose series in the date range is
    what [get_ticker_data_for_period] returns for it. *)
Definition ticker_cell (data_dir : @DataDir F)
           (start_date end_date : option Timestamp)
           (d : Timestamp) (cell : @Cell F) (item : string * Q) : Prop :=
  exists data,
    get_ticker_data_for_period data_dir (fst item) start_date end_date
    = Some data /\
    cell_of d cell (item, data).

(** A joined row holds one such cell per available ticker, in order. *)
Definition row_cells_ok (avs : list ((string * Q) * @TickerData F))
           (row : Timestamp * list (@Cell F)) : Prop :=
  Forall2 (cell_of (fst row)) (snd row) avs.

(** The product x0 * x1 * ... * xt of a non-empty list, taken from the
    left. *)
Definition running_product (xs : list F) : F :=
  match xs with
  | [] => fone
  | x :: t => fold_left fmul t x
  end.

(** The returns and the cumulative returns computed from the joined rows
    (csv_data_reader.py:123 and :126). *)
Definition returns_of (rows : @Joined F) : list F :=
  map (fun row => row_sum (snd row)) rows.

Definition cumulative_of (rows : @Joined F) : list F :=
  map (fun c => fmul c (of_Z 100)) (cumprod (map (fadd fone) (returns_of rows))).

(** The shape of a frame built by a left join onto the first available
    ticker: its dates are that ticker's dates in the range; every row
    holds one cell per available ticker, missing when the ticker has no
    row on that date; the row's return is the sum of its cells, a missing
    cell counting as 0. *)
Definition frame_is_left_join (data_dir : @DataDir F) (portfolio : Portfolio)
           (start_date end_date : option Timestamp)
           (frame : @PortfolioData F) : Prop :=
  exists first_item first_data others,
    available data_dir start_date end_date portfolio
    = (first_item, first_data) :: others /\
    (forall d, In d (map row_date frame) <-> In d (map fst first_data)) /\
    Forall (fun row =>
              Forall2 (cell_of (row_date row)) (weighted row)
                      (available data_dir start_date end_date portfolio) /\
              portfolio_return row =
              fold_left fadd (map cell_value (weighted row)) fzero)
           frame /\
    cell_value None = fzero.

End Notions.

(** A series of rationals that never falls from one row to the next. *)
Fixpoint non_decreasing (xs : list Q) : Prop :=
  match xs with
  | x :: (y :: _) as t => (x <= y)%Q /\ non_decreasing t
  | _ => True
  end.

(** ** Sample inputs *)

(** Thirteen trading dates, the 15th of every month from January 2020 to
    January 2021, each with a zero daily return. *)
Definition monthly13 : list Timestamp :=
  map (fun m => mkTimestamp 2020 m 15) [1; 2; 3; 4; 5; 6; 7; 8; 9; 10; 11; 12]
  ++ [mkTimestamp 2021 1 15].

Definition flat13 : @PortfolioData float :=
  map (fun t => mkPortfolioRow t [] (of_Z 0) (of_Z 100)) monthly13.

(** Three trading days with daily returns of 1 %, 2 % and -1 %. *)
Definition three_days : @PortfolioData Q :=
  [ mkPortfolioRow (mkTimestamp 2020 1 30) [] 0.01%Q 101%Q;
    mkPortfolioRow (mkTimestamp 2020 1 31) [] 0.02%Q 103.02%Q;
    mkPortfolioRow (mkTimestamp 2020 2 3) [] (-0.01)%Q 101.9898%Q ].


Definition day1 : Timestamp := mkTimestamp 2020 1 2.
Definition day2 : Timestamp := mkTimestamp 2020 1 3.
Definition day3 : Timestamp := mkTimestamp 2020 1 6.

(** A data directory in which the VT file has no row on [day2] while the
    bond file has all three days. *)
Definition uneven_dir : @DataDir Q :=
  fun filename =>
    if String.eqb filename "HistoricalPrices_VT.csv"
    then Some [ (day1, 100%Q); (day3, 102%Q) ]
    else if String.eqb filename "HistoricalPrices_VBTLX.csv"
    then Some [ (day1, 50%Q); (day2, 51%Q); (day3, 50%Q) ]
    else None.

(** Two tickers over three trading days, listed newest first as in the
    downloaded files, whose closes give the daily returns
    [-, 0.01, 0.02] and [-, 0.00, -0.01]. *)
Definition scenario_dir : @DataDir Q :=
  fun filename =>
    if String.eqb filename "HistoricalPrices_VT.csv"
    then Some [ (day3, 103.02%Q); (day2, 101%Q); (day1, 100%Q) ]
    else if String.eqb filename "HistoricalPrices_VBTLX.csv"
    then Some [ (day3, 49.5%Q); (day2, 50%Q); (day1, 50%Q) ]
    else None.

(** A data directory that holds the VT file only. *)
Definition only_vt_dir : @DataDir Q :=
  fun filename =>
    if String.eqb filename "HistoricalPrices_VT.csv"
    then Some [ (day3, 103.02%Q); (day2, 101%Q); (day1, 100%Q) ]
    else None.

Definition two_fund : Portfolio :=
  [ ("VT"%string, 0.60%Q); ("BND"%string, 0.40%Q) ].

(** A frame with one trading day (a daily return of 1 %). *)
Definition single_day : @PortfolioData float :=
  [ mkPortfolioRow day1 [] (lit 0.01%Q) (fmul (fadd fone (lit 0.01%Q)) (of_Z 100)) ].

(** The weights of a portfolio as numbers, and their sum taken in the
    portfolio's order. *)
Definition weights {F : Type} `{Num F} (portfolio : Portfolio) : list F :=
  map (fun item => lit (snd item)) portfolio.

Definition weight_sum {F : Type} `{Num F} (portfolio : Portfolio) : F :=
  fold_left fadd (weights portfolio) fzero.

(** The row of weighted cells of a date on which every ticker of the
    portfolio has a daily return, [rs] listing the returns in the
    portfolio's order. *)
Definition full_row {F : Type} `{Num F} (portfolio : Portfolio) (rs : list F)
  : list (@Cell F) :=
  map (fun p => Some (fmul (snd p) (lit (snd (fst p))))) (combine portfolio rs).

(** Positive weights that sum to 1, so that the return of a full row lies
    between the least and the greatest of the tickers' returns. *)
Definition convex_weights (portfolio : Portfolio) : Prop :=
  Forall (fun w : Q => 0 < w)%Q (weights portfolio) /\
  (weight_sum portfolio == 1)%Q /\
  forall (rs : list Q) (lo hi : Q),
    List.length rs = List.length portfolio ->
    Forall (fun r => lo <= r /\ r <= hi)%Q rs ->
    (lo <= row_sum (full_row portfolio rs) /\
     row_sum (full_row portfolio rs) <= hi)%Q.

(** ** Further notions *)

(** A calendar date: a month from 1 to 12 and a day from 1 on. *)
Definition valid_date (t : Timestamp) : Prop :=
  1 <= month t <= 12 /\ 1 <= day t.

(** The months in which the scheduling loop of [simulate_growth] looks for
    a date: those an odd number of months after the month of [first]. *)
Definition examined_month (first d : Timestamp) : bool :=
  (month_number first <? month_number d)
  && Z.odd (month_number d - month_number first).

(** Dates in ascending order: every date is at or before all later ones. *)
Definition date_le (a b : Timestamp) : Prop := ts_leb a b = true.

Definition ascending (dates : list Timestamp) : Prop :=
  StronglySorted date_le dates.

(** A date within the optional bounds of a period. *)
Definition in_period (start_date end_date : option Timestamp)
           (d : Timestamp) : Prop :=
  match start_date with Some s => ts_leb s d = true | None => True end /\
  match end_date with Some e => ts_leb d e = true | None => True end.

Section FurtherNotions.
Context {F : Type} `{NF : Num F}.

(** The 'contribution' column that [simulate_growth] builds for an index
    (app.py:44-72). *)
Definition contribution_column (idx : list Timestamp)
           (initial_investment monthly_contribution : F) : list F :=
  match idx with
  | [] => []
  | first :: _ =>
      contribution_loop (loop_fuel first (last idx first)) idx first
                        (last idx first) monthly_contribution first
                        (list_set 0 initial_investment (map (fun _ => fzero) idx))
  end.

(** The figures shown under the growth chart (app.py:229-232), computed
    from a trajectory, which always has a last row. *)
Record Summary : Type := mkSummary {
  final_value : F;
  total_invested : F;
  profit : F;
  roi : F
}.

Definition summarize (growth_data : @Investments F) : Summary :=
  let final_value := last (portfolio_value growth_data) fzero in
  let total_invested := last (cumulative_contribution growth_data) fzero in
  let profit := fsub final_value total_invested in
  let roi := fmul (fdiv profit total_invested) (of_Z 100) in
  mkSummary final_value total_invested profit roi.

End FurtherNotions.

(** Three trading days without a falling price, and three days without
    any price change. *)
Definition rising_days : @PortfolioData Q :=
  [ mkPortfolioRow (mkTimestamp 2020 1 30) [] 0.01%Q 101%Q;
    mkPortfolioRow (mkTimestamp 2020 1 31) [] 0.02%Q 103.02%Q;
    mkPortfolioRow (mkTimestamp 2020 2 3) [] 0%Q 103.02%Q ].

Definition still_days : @PortfolioData Q :=
  [ mkPortfolioRow (mkTimestamp 2020 1 30) [] 0%Q 100%Q;
    mkPortfolioRow (mkTimestamp 2020 1 31) [] 0%Q 100%Q;
    mkPortfolioRow (mkTimestamp 2020 2 3) [] 0%Q 100%Q ].

(** One plus the portfolio return that a one-ticker portfolio of weight 1
    gets from a cell of daily returns. *)
Definition growth_factor (c : @Cell Q) : Q :=
  (1 + row_sum [option_map (fun x : Q => fmul x (lit 1)) c])%Q.

(** * Properties *)

(** ** Columns *)

Section ColumnFacts.
Context {A : Type}.

Lemma list_set_length (i : nat) (v : A) (l : list A) :
  List.length (list_set i v l) = List.length l.
Proof.
  revert i; induction l as [|x t IH]; intros [|j]; simpl; auto.
Qed.

Lemma nth_list_set_same (i : nat) (v d : A) (l : list A) :
  (i < List.length l)%nat -> nth i (list_set i v l) d = v.
Proof.
  revert i; induction l as [|x t IH]; intros [|j] Hlt; simpl in *;
    try lia; auto.
  apply IH; lia.
Qed.

Lemma nth_list_set_other (i j : nat) (v d : A) (l : list A) :
  i <> j -> nth j (list_set i v l) d = nth j l d.
Proof.
  revert i j; induction l as [|x t IH]; intros [|i] [|j] Hne; simpl;
    try congruence; auto.
Qed.
End ColumnFacts.

(** ** The value loop of [simulate_growth] *)

Section GrowthFacts.
Context {F : Type} `{NF : Num F}.

Lemma value_run_S rets contribs init n k :
  value_run rets contribs init n (S k) =
  value_step rets contribs (value_run rets contribs init n k) k.
Proof.
  unfold value_run. rewrite seq_S, fold_left_app. reflexivity.
Qed.

(** Loop invariant: the column keeps its length, rows [0..k-1] hold the
    recurrence, and the running value is the last row written. *)
Lemma value_run_invariant rets contribs init n k :
  (k <= n)%nat ->
  let st := value_run rets contribs init n k in
  List.length (snd st) = n /\
  (k = 0%nat -> fst st = init) /\
  ((0 < k)%nat -> fst st = nth (k - 1) (snd st) fzero /\
                  nth 0 (snd st) fzero = init) /\
  (forall i, (0 < i < k)%nat -> grown rets contribs (snd st) i).
Proof.
  induction k as [|k IH]; intros Hk.
  - cbn. rewrite repeat_length. repeat split; try lia; auto.
  - rewrite value_run_S.
    destruct IH as (Hlen & H0 & Hpos & Hrec); [lia|].
    destruct (value_run rets contribs init n k) as [value pv] eqn:Est.
    cbn [fst snd] in *. unfold value_step. cbn [fst snd].
    rewrite list_set_length. split; [exact Hlen|].
    split; [lia|]. split.
    + intros _. replace (S k - 1)%nat with k by lia.
      rewrite nth_list_set_same by lia. split; [reflexivity|].
      destruct k as [|k'].
      * rewrite nth_list_set_same by lia. cbn. apply H0; reflexivity.
      * rewrite nth_list_set_other by lia. apply Hpos; lia.
    + intros i Hi. unfold grown.
      destruct (Nat.eq_dec i k) as [->|Hne].
      * rewrite nth_list_set_same by lia.
        rewrite nth_list_set_other by lia.
        destruct k as [|k']; [lia|].
        cbn [Nat.ltb Nat.leb].
        destruct Hpos as [Hv _]; [lia|]. rewrite Hv. reflexivity.
      * rewrite !nth_list_set_other by lia. apply Hrec; lia.
Qed.

Lemma map_const_repeat {B : Type} (c : F) (l : list B) :
  map (fun _ => c) l = repeat c (List.length l).
Proof. induction l; simpl; congruence. Qed.

(** On a frame with at least one row [simulate_growth] returns a
    trajectory, whatever the two amounts are. *)
Lemma simulate_growth_returns (row : PortfolioRow) (rows : list PortfolioRow)
      (init mc : F) :
  exists contribs,
    simulate_growth (Some (row :: rows)) init mc =
    Returned (Some (mkInvestments
                      (map row_date (row :: rows))
                      (map portfolio_return (row :: rows))
                      contribs (cumsum contribs)
                      (snd (value_run (map portfolio_return (row :: rows))
                                      contribs init
                                      (List.length (row :: rows))
                                      (List.length (row :: rows)))))).
Proof.
  eexists. unfold simulate_growth, value_run.
  cbn [map]. rewrite map_const_repeat.
  cbn [List.length]. rewrite !length_map. reflexivity.
Qed.
End GrowthFacts.

(** ** [simulate_growth]: the trajectory *)

Section GrowthClaims.
Context {F : Type} `{NF : Num F}.

(** Shared by the statements below: the trajectory of a frame with a first
    row. *)
Lemma simulate_growth_trajectory
      (row : PortfolioRow) (rows : list PortfolioRow) (init mc : F) :
  exists inv,
    simulate_growth (Some (row :: rows)) init mc = Returned (Some inv) /\
    value_recurrence (row :: rows) init inv.
Proof.
  destruct (simulate_growth_returns row rows init mc) as [contribs Hrun].
  eexists; split; [exact Hrun|].
  set (n := List.length (row :: rows)) in *.
  destruct (value_run_invariant (map portfolio_return (row :: rows))
              contribs init (n := n) (k := n) (le_n n))
    as (Hlen & _ & Hpos & Hrec).
  assert (Hn : (0 < n)%nat) by (subst n; cbn; lia).
  unfold value_recurrence; cbn [index ret contribution portfolio_value].
  split; [reflexivity|]. split; [reflexivity|]. split; [exact Hlen|].
  split; [apply Hpos, Hn|]. intros i Hi. apply Hrec, Hi.
Qed.

(** C1.  On every non-empty return series [simulate_growth] returns a
    trajectory whose first portfolio value is the initial investment
    itself and whose value at every later row [i] is the previous value
    grown by [1 + return[i]] with row [i]'s contribution added afterwards. *)
Theorem simulate_growth_recurrence (data : @PortfolioData F) (init mc : F) :
  data <> [] ->
  exists inv, simulate_growth (Some data) init mc = Returned (Some inv) /\
              value_recurrence data init inv.
Proof.
  intros Hne. destruct data as [|row rows]; [congruence|].
  apply simulate_growth_trajectory.
Qed.

(** C9 (as amended).  [simulate_growth] checks neither amount: on a series
    with at least one row it returns a trajectory for every initial
    investment and every monthly contribution, zero and negative ones
    included, and the compounding recurrence is applied to them as given. *)
Theorem simulate_growth_accepts_any_amounts
        (row : PortfolioRow) (rows : list PortfolioRow) :
  forall init mc : F,
  exists inv,
    simulate_growth (Some (row :: rows)) init mc = Returned (Some inv) /\
    value_recurrence (row :: rows) init inv.
Proof.
  intros init mc. apply simulate_growth_trajectory.
Qed.

(** C8 (as amended).  A series without dates makes [simulate_growth] raise
    [IndexError] at the assignment to row 0; the failure value [None] is
    returned only for portfolio data that is itself [None]. *)
Theorem simulate_growth_empty_raises (init mc : F) :
  simulate_growth (Some []) init mc = Raised IndexError /\
  simulate_growth None init mc = Returned None /\
  forall data, simulate_growth (Some data) init mc <> Returned None.
Proof.
  split; [reflexivity|]. split; [reflexivity|].
  intros [|row rows]; [discriminate|].
  destruct (simulate_growth_returns row rows init mc) as [c Hc].
  intros Hnone. pose proof (eq_trans (eq_sym Hc) Hnone) as Habs.
  discriminate Habs.
Qed.

End GrowthClaims.

(** ** The contribution schedule *)

Section ScheduleFacts.
Context {F : Type} `{NF : Num F}.

Lemma month_number_first_of_next_month (t : Timestamp) :
  month_number (first_of_next_month t) = month_number t + 1.
Proof.
  unfold first_of_next_month, month_number.
  destruct (month t =? 12) eqn:E; cbn [year month].
  - apply Z.eqb_eq in E. lia.
  - lia.
Qed.

Lemma month_number_plus_one_month (t : Timestamp) :
  month_number (plus_one_month t) = month_number t + 1.
Proof.
  unfold plus_one_month, month_number.
  destruct (month t =? 12) eqn:E; cbn [year month].
  - apply Z.eqb_eq in E. lia.
  - lia.
Qed.

Lemma valid_month_first_of_next_month (t : Timestamp) :
  valid_month t -> valid_month (first_of_next_month t).
Proof.
  unfold valid_month, first_of_next_month.
  destruct (month t =? 12) eqn:E; cbn [month]; [lia|].
  apply Z.eqb_neq in E. lia.
Qed.

Lemma valid_month_plus_one_month (t : Timestamp) :
  valid_month t -> valid_month (plus_one_month t).
Proof.
  unfold valid_month, plus_one_month.
  destruct (month t =? 12) eqn:E; cbn [month]; [lia|].
  apply Z.eqb_neq in E. lia.
Qed.

(** X1.  Each pass of the [while] loop moves [current_date] forward by two
    calendar months: to the first day of the month after [next_month]. *)
Lemma contribution_step_two_months idx first (mc : F) current col :
  month_number (snd (contribution_step idx first mc current col)) =
  month_number current + 2.
Proof.
  unfold contribution_step. cbn [snd].
  rewrite month_number_plus_one_month, month_number_first_of_next_month. lia.
Qed.

Lemma ts_leb_later_month (a b : Timestamp) :
  valid_month a -> valid_month b ->
  month_number b < month_number a -> ts_leb a b = false.
Proof.
  unfold valid_month, month_number, ts_leb, ts_compare. intros Ha Hb Hlt.
  destruct (year a ?= year b) eqn:Ey.
  - apply Z.compare_eq in Ey.
    destruct (month a ?= month b) eqn:Em.
    + apply Z.compare_eq in Em. lia.
    + rewrite Z.compare_lt_iff in Em. lia.
    + reflexivity.
  - rewrite Z.compare_lt_iff in Ey. lia.
  - reflexivity.
Qed.

(** The loop leaves through its condition within [loop_fuel] passes: more
    fuel does not change the column it returns. *)
Lemma contribution_loop_enough idx first end_date (mc : F) :
  valid_month end_date ->
  forall fuel current col extra,
    valid_month current ->
    month_number end_date - month_number current < Z.of_nat fuel ->
    contribution_loop (fuel + extra) idx first end_date mc current col =
    contribution_loop fuel idx first end_date mc current col.
Proof.
  intros Hend. induction fuel as [|fuel IH]; intros current col extra Hcur Hlt.
  - cbn [Nat.add contribution_loop].
    destruct extra as [|extra]; [reflexivity|]. cbn [contribution_loop].
    rewrite ts_leb_later_month; auto. lia.
  - cbn [Nat.add contribution_loop].
    destruct (ts_leb current end_date); [|reflexivity].
    assert (Hstep : month_number
                      (snd (contribution_step idx first mc current col))
                    = month_number current + 2).
    { unfold contribution_step. cbn [snd].
      rewrite month_number_plus_one_month, month_number_first_of_next_month.
      lia. }
    assert (Hvalid : valid_month
                       (snd (contribution_step idx first mc current col))).
    { unfold contribution_step. cbn [snd].
      apply valid_month_plus_one_month, valid_month_first_of_next_month, Hcur. }
    destruct (contribution_step idx first mc current col) as [col' next].
    cbn [snd] in *. apply IH; [exact Hvalid|lia].
Qed.

(** X2.  On calendar dates the [while] loop ends by its own condition
    within [loop_fuel] passes: allowing it more passes changes nothing. *)
Lemma contribution_loop_fuel idx first end_date (mc : F) col extra :
  valid_month first -> valid_month end_date ->
  contribution_loop (loop_fuel first end_date + extra) idx first end_date mc
                    first col =
  contribution_loop (loop_fuel first end_date) idx first end_date mc first col.
Proof.
  intros Hf He. apply contribution_loop_enough; auto.
  unfold loop_fuel. lia.
Qed.

End ScheduleFacts.

(** C1, at a concrete series: three trading days, 10000 invested, 500 a
    month. *)
Lemma simulate_growth_recurrence_three_days :
  three_days <> [] /\
  exists inv,
    simulate_growth (Some three_days) (of_Z 10000) (of_Z 500)
    = Returned (Some inv) /\
    value_recurrence three_days (of_Z 10000) inv.
Proof.
  split; [discriminate|].
  apply (@simulate_growth_recurrence Q NumQ three_days (of_Z 10000) (of_Z 500)).
  discriminate.
Defined.

(** The same run, evaluated: the February contribution is added after
    that day's return of -1 % has been applied to 10200. *)
Example simulate_growth_three_days_values :
  exists inv,
    simulate_growth (Some three_days) (of_Z 10000) (of_Z 500)
    = Returned (Some inv) /\
    map Qred (contribution inv) = [10000%Q; 0%Q; 500%Q] /\
    map Qred (portfolio_value inv) = [10000%Q; 10200%Q; 10598%Q].
Proof.
  eexists. split; [reflexivity|]. split; vm_compute; reflexivity.
Qed.

(** C2, evaluated on the scenario of thirteen monthly dates with 10000
    invested and 500 contributed monthly: the loop advances two months per
    pass, so only February, April, June, August, October and December
    receive the contribution (six events, not twelve) and the cumulative
    contribution ends at 13000. *)
Theorem monthly_contribution_every_second_month :
  exists inv,
    simulate_growth (Some flat13) (of_Z 10000) (of_Z 500)
    = Returned (Some inv) /\
    contribution inv =
      map float_of_Z [10000; 500; 0; 500; 0; 500; 0; 500; 0; 500; 0; 500; 0] /\
    last (cumulative_contribution inv) fzero = float_of_Z 13000 /\
    List.length (filter (fun c => PrimFloat.eqb c (float_of_Z 500))
                        (tl (contribution inv))) = 6%nat.
Proof.
  eexists. split; [reflexivity|]. repeat split; vm_compute; reflexivity.
Qed.

(** C8: a frame without rows, 10000 invested, 500 contributed monthly. *)
Lemma simulate_growth_empty_frame_raises :
  simulate_growth (Some (@nil (@PortfolioRow float))) (of_Z 10000) (of_Z 500)
  = Raised IndexError.
Proof. reflexivity. Qed.

(** C9: a negative initial investment and a negative monthly contribution
    are compounded like any others. *)
Lemma simulate_growth_negative_amounts :
  exists inv,
    simulate_growth (Some flat13) (of_Z (-100)) (of_Z (-5))
    = Returned (Some inv) /\
    portfolio_value inv =
      map float_of_Z [-100; -105; -105; -110; -110; -115; -115; -120; -120;
                      -125; -125; -130; -130].
Proof.
  eexists. split; [reflexivity|]. vm_compute. reflexivity.
Qed.

(** ** [get_portfolio_data]: which tickers and which dates make the frame *)

Lemma ts_eqb_eq (a b : Timestamp) : ts_eqb a b = true <-> a = b.
Proof.
  unfold ts_eqb, ts_compare. destruct a as [ya ma da], b as [yb mb db].
  cbn [year month day]. split.
  - destruct (ya ?= yb) eqn:Ey; try discriminate.
    destruct (ma ?= mb) eqn:Em; try discriminate.
    destruct (da ?= db) eqn:Ed; try discriminate.
    apply Z.compare_eq in Ey, Em, Ed. intros _. congruence.
  - intros [= -> -> ->]. rewrite !Z.compare_refl. reflexivity.
Qed.

Section ReaderFacts.
Context {F : Type} `{NF : Num F}.
Variable data_dir : @DataDir F.
Variables start_date end_date : option Timestamp.

Lemma fold_join_available (portfolio : Portfolio) (acc : option (@Joined F)) :
  fold_left (join_ticker data_dir start_date end_date) portfolio acc =
  fold_left join_available (available data_dir start_date end_date portfolio) acc.
Proof.
  revert acc. induction portfolio as [|item rest IH]; intros acc; [reflexivity|].
  cbn [fold_left available flat_map]. rewrite IH. unfold join_ticker at 1.
  fold (available data_dir start_date end_date rest).
  destruct (get_ticker_data_for_period data_dir (fst item) start_date end_date);
    reflexivity.
Qed.

Lemma available_nil_iff (portfolio : Portfolio) :
  available data_dir start_date end_date portfolio = [] <->
  forall item, In item portfolio ->
    get_ticker_data_for_period data_dir (fst item) start_date end_date = None.
Proof.
  induction portfolio as [|item rest IH].
  - split; [intros _ ? []|reflexivity].
  - cbn [available flat_map]. fold (available data_dir start_date end_date rest).
    destruct (get_ticker_data_for_period data_dir (fst item) start_date end_date)
      eqn:E.
    + split; [discriminate|]. intros Hall.
      specialize (Hall item (or_introl eq_refl)). congruence.
    + cbn [app]. rewrite IH. split.
      * intros Hall it [<-|Hin]; auto.
      * intros Hall it Hin. apply Hall. right. exact Hin.
Qed.

Lemma fold_join_available_some avs (res : @Joined F) :
  fold_left join_available avs (Some res) <> None.
Proof.
  revert res. induction avs as [|av avs IH]; intros res; cbn [fold_left].
  - discriminate.
  - unfold join_available at 2. apply IH.
Qed.

Lemma fold_join_none_iff (portfolio : Portfolio) :
  fold_left (join_ticker data_dir start_date end_date) portfolio None = None
  <-> available data_dir start_date end_date portfolio = [].
Proof.
  rewrite fold_join_available.
  destruct (available data_dir start_date end_date portfolio) as [|av avs]; [tauto|].
  cbn [fold_left]. unfold join_available at 2.
  split; [|discriminate].
  intros Hnone. exfalso. eapply fold_join_available_some. exact Hnone.
Qed.

Lemma portfolio_frame_none_iff (portfolio : Portfolio) :
  portfolio_frame data_dir portfolio start_date end_date = None <->
  fold_left (join_ticker data_dir start_date end_date) portfolio None = None.
Proof.
  unfold portfolio_frame.
  destruct (fold_left (join_ticker data_dir start_date end_date) portfolio None); split; congruence.
Qed.

End ReaderFacts.

(** With the bond file missing, the two-fund portfolio still gets a frame,
    built from VT alone. *)
Example two_fund_without_bonds :
  exists frame,
    get_portfolio_data only_vt_dir "Two-fund Portfolio" None None = Some frame /\
    map row_date frame = [day1; day2; day3] /\
    map Qred (map portfolio_return frame) = map Qred [0; 0.006; 0.012]%Q.
Proof.
  eexists. split; [reflexivity|]. split; vm_compute; reflexivity.
Qed.

(** ** [get_portfolio_data]: the left join *)

(** The frame types are abbreviations; proofs work on what they stand
    for. *)
Ltac unalias := unfold Joined, TickerData, PortfolioData, Cell in *.

Section JoinFacts.
Context {F : Type} `{NF : Num F}.

Lemma weighted_column_dates (w : Q) (data : @TickerData F) :
  map fst (weighted_column w data) = map fst data.
Proof.
  unfold weighted_column. rewrite map_map. reflexivity.
Qed.

(** A left join keeps the dates of its left operand, and only those. *)
Lemma left_join_dates (res : @Joined F) (col : @TickerData F) (d : Timestamp) :
  In d (map fst (left_join res col)) <-> In d (map fst res).
Proof.
  unfold left_join. unalias. rewrite !in_map_iff. split.
  - intros (x & Hx & Hin). apply in_flat_map in Hin as (row & Hrow & Hin).
    cbv beta in Hin.
    exists row. split; [|exact Hrow]. subst d.
    destruct (filter (fun r => ts_eqb (fst r) (fst row)) col) as [|m ms].
    + destruct Hin as [<-|[]]. reflexivity.
    + apply in_map_iff in Hin as (r & <- & _). reflexivity.
  - intros (row & Hd & Hrow).
    destruct (filter (fun r => ts_eqb (fst r) (fst row)) col) as [|m ms] eqn:E.
    + exists (fst row, snd row ++ [None]). split; [exact Hd|].
      apply in_flat_map. exists row. split; [exact Hrow|].
      cbv beta. rewrite E. left. reflexivity.
    + exists (fst row, snd row ++ [snd m]). split; [exact Hd|].
      apply in_flat_map. exists row. split; [exact Hrow|].
      cbv beta. rewrite E. left. reflexivity.
Qed.

(** Joining a ticker appends to every row that ticker's cell for the
    row's date. *)
Lemma left_join_cells avs (res : @Joined F) (item : string * Q)
      (data : @TickerData F) :
  Forall (row_cells_ok avs) res ->
  Forall (row_cells_ok (avs ++ [(item, data)]))
         (left_join res (weighted_column (snd item) data)).
Proof.
  intros Hres. rewrite Forall_forall in *. intros x Hx.
  unfold left_join in Hx. unalias. apply in_flat_map in Hx as (row & Hrow & Hx).
  cbv beta in Hx.
  specialize (Hres row Hrow). unfold row_cells_ok in *.
  match type of Hx with context [filter ?f ?c] =>
    destruct (filter f c) as [|m ms] eqn:E end.
  - destruct Hx as [<-|[]]. cbn [fst snd].
    apply Forall2_app; [exact Hres|]. constructor; [|constructor].
    right. cbn [fst snd]. split; [|reflexivity].
    intros Hin. rewrite <- (weighted_column_dates (snd item)) in Hin.
    apply in_map_iff in Hin as (r & Hr & Hin).
    assert (Hf : In r (filter (fun r => ts_eqb (fst r) (fst row))
                              (weighted_column (snd item) data))).
    { apply filter_In. split; [exact Hin|]. apply ts_eqb_eq. exact Hr. }
    unalias. rewrite E in Hf. exact Hf.
  - rewrite <- E in Hx. apply in_map_iff in Hx as (r & <- & Hr).
    apply filter_In in Hr as [Hr Heq]. apply ts_eqb_eq in Heq.
    cbn [fst snd]. apply Forall2_app; [exact Hres|].
    constructor; [|constructor]. left. cbn [fst snd].
    unfold weighted_column in Hr. apply in_map_iff in Hr as (r0 & <- & Hr0).
    cbn [fst snd] in *. exists (snd r0). split; [|reflexivity].
    rewrite <- Heq. destruct r0; exact Hr0.
Qed.

Lemma fold_join_available_rows avs :
  forall done (res res' : @Joined F),
    fold_left join_available avs (Some res) = Some res' ->
    (forall d, In d (map fst res') <-> In d (map fst res)) /\
    (Forall (row_cells_ok done) res ->
     Forall (row_cells_ok (done ++ avs)) res').
Proof.
  induction avs as [|[item data] avs IH]; intros done res res' Hfold.
  - cbn [fold_left] in Hfold. injection Hfold as <-.
    rewrite app_nil_r. tauto.
  - cbn [fold_left] in Hfold. unfold join_available at 2 in Hfold.
    cbn [fst snd] in Hfold.
    destruct (IH (done ++ [(item, data)]) _ _ Hfold) as [Hdates Hcells].
    split.
    + intros d. rewrite Hdates. apply left_join_dates.
    + intros Hres. rewrite <- app_assoc in Hcells. apply Hcells.
      apply left_join_cells. exact Hres.
Qed.

End JoinFacts.

(** ** [get_portfolio_data]: the columns of the frame *)

Section FrameFacts.
Context {F : Type} `{NF : Num F}.

Lemma accumulate_from_length (op : F -> F -> F) (acc : F) (xs : list F) :
  List.length (accumulate_from op acc xs) = List.length xs.
Proof.
  revert acc; induction xs as [|x t IH]; intros acc; cbn; [|rewrite IH];
    reflexivity.
Qed.

Lemma accumulate_length (op : F -> F -> F) (xs : list F) :
  List.length (accumulate op xs) = List.length xs.
Proof.
  destruct xs as [|x t]; cbn; [|rewrite accumulate_from_length]; reflexivity.
Qed.

Lemma pandas_cum_length (op : F -> F -> F) (neutral : F) (xs : list F) :
  List.length (pandas_cum op neutral xs) = List.length xs.
Proof.
  unfold pandas_cum.
  rewrite length_map, length_combine, accumulate_length, length_map. lia.
Qed.

Lemma combine_map_l {A B C : Type} (f : A -> B) (l : list A) (c : list C) :
  combine (combine l (map f l)) c =
  map (fun p => ((fst p, f (fst p)), snd p)) (combine l c).
Proof.
  revert c; induction l as [|a l IH]; intros [|x c]; cbn; try reflexivity.
  rewrite IH. reflexivity.
Qed.

Lemma map_fst_combine {A B : Type} (l : list A) (c : list B) :
  (List.length l <= List.length c)%nat -> map fst (combine l c) = l.
Proof.
  revert c; induction l as [|a l IH]; intros [|x c] Hlen; cbn in *;
    try reflexivity; try lia.
  rewrite IH by lia. reflexivity.
Qed.

Lemma map_snd_combine {A B : Type} (l : list A) (c : list B) :
  (List.length c <= List.length l)%nat -> map snd (combine l c) = c.
Proof.
  revert c; induction l as [|a l IH]; intros [|x c] Hlen; cbn in *;
    try reflexivity; try lia.
  rewrite IH by lia. reflexivity.
Qed.

Lemma cumulative_of_length (rows : @Joined F) :
  List.length (cumulative_of rows) = List.length rows.
Proof.
  unfold cumulative_of, cumprod, returns_of.
  rewrite length_map, pandas_cum_length, !length_map. reflexivity.
Qed.

(** A frame that is returned consists of the joined rows, each with its
    return and cumulative return. *)
Lemma portfolio_frame_rows (data_dir : @DataDir F) (portfolio : Portfolio)
      (start_date end_date : option Timestamp) (frame : @PortfolioData F) :
  portfolio_frame data_dir portfolio start_date end_date = Some frame ->
  exists rows,
    fold_left (join_ticker data_dir start_date end_date) portfolio None
    = Some rows /\
    frame = map (fun p => mkPortfolioRow (fst (fst p)) (snd (fst p))
                                         (row_sum (snd (fst p))) (snd p))
                (combine rows (cumulative_of rows)).
Proof.
  unfold portfolio_frame.
  destruct (fold_left (join_ticker data_dir start_date end_date) portfolio None)
    as [rows|]; [|discriminate].
  intros [= <-]. exists rows. split; [reflexivity|].
  fold (returns_of rows). fold (cumulative_of rows).
  unfold returns_of at 1. rewrite combine_map_l, map_map. reflexivity.
Qed.

Lemma frame_dates (rows : @Joined F) :
  map row_date
      (map (fun p => mkPortfolioRow (fst (fst p)) (snd (fst p))
                                    (row_sum (snd (fst p))) (snd p))
           (combine rows (cumulative_of rows)))
  = map fst rows.
Proof.
  rewrite map_map. cbn [row_date].
  rewrite <- (map_map fst fst), map_fst_combine; [reflexivity|].
  rewrite cumulative_of_length. lia.
Qed.

Lemma frame_returns (rows : @Joined F) :
  map portfolio_return
      (map (fun p => mkPortfolioRow (fst (fst p)) (snd (fst p))
                                    (row_sum (snd (fst p))) (snd p))
           (combine rows (cumulative_of rows)))
  = returns_of rows.
Proof.
  rewrite map_map. cbn [portfolio_return]. unfold returns_of.
  rewrite <- (map_map fst (fun row => row_sum (snd row))), map_fst_combine;
    [reflexivity|].
  rewrite cumulative_of_length. lia.
Qed.

Lemma frame_cumulative (rows : @Joined F) :
  map cumulative_return
      (map (fun p => mkPortfolioRow (fst (fst p)) (snd (fst p))
                                    (row_sum (snd (fst p))) (snd p))
           (combine rows (cumulative_of rows)))
  = cumulative_of rows.
Proof.
  rewrite map_map. cbn [cumulative_return].
  rewrite map_snd_combine; [reflexivity|].
  rewrite cumulative_of_length. lia.
Qed.

End FrameFacts.

Section LeftJoinClaim.
Context {F : Type} `{NF : Num F}.

(** C3 (as amended).  A frame returned for a portfolio is a left join onto
    the first ticker that has data: its rows are the dates of that
    ticker's series in the range (dates that only later tickers have get
    no row), and on a date where a ticker has no row its cell is missing
    and adds 0 to that date's portfolio return. *)
Theorem portfolio_frame_left_join (data_dir : @DataDir F)
        (portfolio : Portfolio) (start_date end_date : option Timestamp)
        (frame : @PortfolioData F) :
  portfolio_frame data_dir portfolio start_date end_date = Some frame ->
  frame_is_left_join data_dir portfolio start_date end_date frame.
Proof.
  intros Hframe.
  destruct (portfolio_frame_rows _ _ _ _ Hframe) as (rows & Hfold & ->).
  rewrite fold_join_available in Hfold. unfold frame_is_left_join.
  destruct (available data_dir start_date end_date portfolio)
    as [|[item0 data0] avs] eqn:Eav; [discriminate|].
  cbn [fold_left] in Hfold. unfold join_available at 2 in Hfold.
  cbn [fst snd] in Hfold.
  destruct (@fold_join_available_rows F NF avs [(item0, data0)] _ _ Hfold)
    as [Hdates Hcells].
  exists item0, data0, avs. split; [reflexivity|]. split; [|split].
  - intros d. rewrite frame_dates, Hdates, map_map. cbn [fst].
    rewrite <- (weighted_column_dates (snd item0) data0). reflexivity.
  - rewrite Forall_map. apply Forall_forall. intros p Hp.
    cbn [row_date weighted portfolio_return]. split; [|reflexivity].
    destruct p as [row c]. apply in_combine_l in Hp. cbn [fst snd app] in *.
    assert (Hall : Forall (row_cells_ok ((item0, data0) :: avs)) rows).
    { apply Hcells. apply Forall_forall. intros x Hx.
      apply in_map_iff in Hx as (r & <- & Hr).
      unfold weighted_column in Hr. apply in_map_iff in Hr as (r0 & <- & Hr0).
      unfold row_cells_ok. cbn [fst snd]. constructor; [|constructor].
      left. cbn [fst snd]. exists (snd r0). split; [|reflexivity].
      destruct r0; exact Hr0. }
    rewrite Forall_forall in Hall. exact (Hall _ Hp).
  - reflexivity.
Qed.

End LeftJoinClaim.

(** C3, at [uneven_dir]: the frame of the two-fund portfolio over
    [day1 .. day3] has the rows of VT only. *)
Lemma portfolio_frame_left_join_uneven :
  exists frame,
    portfolio_frame uneven_dir two_fund (Some day1) (Some day3) = Some frame /\
    frame_is_left_join uneven_dir two_fund (Some day1) (Some day3) frame.
Proof.
  eexists. split; [reflexivity|].
  apply (@portfolio_frame_left_join Q NumQ uneven_dir two_fund
           (Some day1) (Some day3)).
  reflexivity.
Defined.

(** C3: [day2] is a date of the bond fund's series within the range, yet
    the frame of the two-fund portfolio has no row for it. *)
Lemma later_ticker_date_dropped :
  exists frame bnd,
    get_portfolio_data uneven_dir "Two-fund Portfolio" (Some day1) (Some day3)
    = Some frame /\
    get_ticker_data_for_period uneven_dir "BND" (Some day1) (Some day3)
    = Some bnd /\
    In day2 (map fst bnd) /\
    map row_date frame = [day1; day3] /\
    ~ In day2 (map row_date frame).
Proof.
  eexists. eexists. split; [reflexivity|]. split; [reflexivity|].
  split; [right; left; reflexivity|]. split; [reflexivity|].
  intros [Habs|[Habs|[]]]; discriminate Habs.
Qed.

(** ** [get_portfolio_data]: tickers without data *)

Section SkipFacts.
Context {F : Type} `{NF : Num F}.
Variable data_dir : @DataDir F.
Variables start_date end_date : option Timestamp.

(** A ticker has no data exactly when it cannot be loaded; the period
    plays no part in it. *)
Lemma loadable_false_iff (item : string * Q) :
  get_ticker_data_for_period data_dir (fst item) start_date end_date = None <->
  loadable data_dir item = false.
Proof.
  unfold get_ticker_data_for_period, load_ticker_data, loadable.
  destruct (dict_get (fst item) file_mapping) as [file|]; [|tauto].
  destruct (data_dir file); [|tauto].
  split; discriminate.
Qed.

(** The available tickers are the loadable ones, in the portfolio's order,
    each with its series in the date range. *)
Lemma available_loadable (portfolio : Portfolio) :
  Forall2 (fun av item =>
             fst av = item /\
             get_ticker_data_for_period data_dir (fst item) start_date end_date
             = Some (snd av))
          (available data_dir start_date end_date portfolio)
          (filter (loadable data_dir) portfolio).
Proof.
  induction portfolio as [|item rest IH]; [constructor|].
  cbn [available flat_map filter].
  fold (available data_dir start_date end_date rest).
  destruct (get_ticker_data_for_period data_dir (fst item) start_date end_date)
    as [data|] eqn:E.
  - destruct (loadable data_dir item) eqn:El.
    + cbn [app]. constructor; [split; [reflexivity|exact E]|exact IH].
    + apply loadable_false_iff in El. congruence.
  - apply loadable_false_iff in E. rewrite E. exact IH.
Qed.

Lemma cells_of_loadable (d : Timestamp) (cells : list (@Cell F))
      (avs : list ((string * Q) * @TickerData F)) (items : list (string * Q)) :
  Forall2 (cell_of d) cells avs ->
  Forall2 (fun av item =>
             fst av = item /\
             get_ticker_data_for_period data_dir (fst item) start_date end_date
             = Some (snd av))
          avs items ->
  Forall2 (ticker_cell data_dir start_date end_date d) cells items.
Proof.
  intros Hcells. revert items.
  induction Hcells as [|c av cells avs Hc _ IH]; intros items Hitems;
    inversion Hitems as [|? item ? items' [Hfst Hget] Hrest]; subst;
    constructor.
  - destruct av as [it data]. cbn [fst snd] in *.
    exists data. split; [exact Hget|exact Hc].
  - apply IH. exact Hrest.
Qed.

(** C7 (as amended).  A ticker that cannot be loaded is passed over and the
    loop goes on with the others: the result is [None] exactly when no
    ticker of the portfolio can be loaded; otherwise it is a frame on the
    dates that the first loadable ticker has in the range, and every row
    of it holds one cell for each loadable ticker, in the portfolio's
    order, taken from that ticker's series. *)
Theorem portfolio_frame_skips_unavailable (portfolio : Portfolio) :
  (portfolio_frame data_dir portfolio start_date end_date = None <->
   forall item, In item portfolio -> loadable data_dir item = false) /\
  (forall first others,
     filter (loadable data_dir) portfolio = first :: others ->
     exists frame first_data,
       portfolio_frame data_dir portfolio start_date end_date = Some frame /\
       get_ticker_data_for_period data_dir (fst first) start_date end_date
       = Some first_data /\
       (forall d, In d (map row_date frame) <-> In d (map fst first_data)) /\
       Forall (fun row =>
                 Forall2 (ticker_cell data_dir start_date end_date (row_date row))
                         (weighted row) (first :: others))
              frame).
Proof.
  split.
  - rewrite portfolio_frame_none_iff, fold_join_none_iff, available_nil_iff.
    split; intros Hall item Hin; apply loadable_false_iff, Hall, Hin.
  - intros first others Hload.
    pose proof (available_loadable portfolio) as Hav. rewrite Hload in Hav.
    destruct (portfolio_frame data_dir portfolio start_date end_date)
      as [frame|] eqn:Hframe.
    2:{ exfalso. apply portfolio_frame_none_iff, fold_join_none_iff in Hframe.
        rewrite Hframe in Hav. inversion Hav. }
    destruct (portfolio_frame_rows _ _ _ _ Hframe) as (rows & Hfold & ->).
    rewrite fold_join_available in Hfold.
    destruct (available data_dir start_date end_date portfolio)
      as [|[item0 data0] avs]; [inversion Hav|].
    inversion Hav as [|? ? ? ? [Hfst Hget] Hrest]; subst.
    cbn [fst snd] in *.
    cbn [fold_left] in Hfold. unfold join_available at 2 in Hfold.
    cbn [fst snd] in Hfold.
    destruct (@fold_join_available_rows F NF avs [(item0, data0)] _ _ Hfold)
      as [Hdates Hcells].
    eexists. exists data0. split; [reflexivity|]. split; [exact Hget|]. split.
    + intros d. rewrite frame_dates, Hdates, map_map. cbn [fst].
      rewrite <- (weighted_column_dates (snd item0) data0). reflexivity.
    + rewrite Forall_map. apply Forall_forall. intros p Hp.
      cbn [row_date weighted]. destruct p as [row c].
      apply in_combine_l in Hp. cbn [fst snd app] in *.
      assert (Hall : Forall (row_cells_ok ((item0, data0) :: avs)) rows).
      { apply Hcells. apply Forall_forall. intros x Hx.
        apply in_map_iff in Hx as (r & <- & Hr).
        unfold weighted_column in Hr. apply in_map_iff in Hr as (r0 & <- & Hr0).
        unfold row_cells_ok. cbn [fst snd]. constructor; [|constructor].
        left. cbn [fst snd]. exists (snd r0). split; [|reflexivity].
        destruct r0; exact Hr0. }
      rewrite Forall_forall in Hall. specialize (Hall _ Hp).
      apply (cells_of_loadable Hall).
      constructor; [split; [reflexivity|exact Hget]|exact Hrest].
Qed.

End SkipFacts.

(** C7: in 2021 neither file of the two-fund portfolio has a row, so no
    ticker yields any data for that period; both tickers can be loaded all
    the same, and the result is an empty frame, not [None]. *)
Lemma frame_outside_the_files_range :
  get_ticker_data_for_period scenario_dir "VT"
    (Some (mkTimestamp 2021 1 1)) (Some (mkTimestamp 2021 12 31)) = Some [] /\
  get_ticker_data_for_period scenario_dir "BND"
    (Some (mkTimestamp 2021 1 1)) (Some (mkTimestamp 2021 12 31)) = Some [] /\
  get_portfolio_data scenario_dir "Two-fund Portfolio"
    (Some (mkTimestamp 2021 1 1)) (Some (mkTimestamp 2021 12 31)) = Some [] /\
  get_portfolio_data scenario_dir "Two-fund Portfolio"
    (Some (mkTimestamp 2021 1 1)) (Some (mkTimestamp 2021 12 31)) <> None.
Proof.
  split; [reflexivity|]. split; [reflexivity|]. split; [reflexivity|].
  discriminate.
Qed.

(** ** The cumulative return *)

Section CumulativeFacts.
Context {F : Type} `{NF : Num F}.

Lemma nth_map_lt {A B : Type} (f : A -> B) (l : list A) (t : nat) (d : B) (d' : A) :
  (t < List.length l)%nat -> nth t (map f l) d = f (nth t l d').
Proof.
  intros Hlt. rewrite (nth_indep _ d (f d')) by (rewrite length_map; exact Hlt).
  apply map_nth.
Qed.

Lemma accumulate_from_nth (op : F -> F -> F) (xs : list F) :
  forall (acc : F) (t : nat) (d : F),
    (t < List.length xs)%nat ->
    nth t (accumulate_from op acc xs) d = fold_left op (firstn (S t) xs) acc.
Proof.
  induction xs as [|x xs IH]; intros acc t d Hlt; cbn in Hlt; [lia|].
  destruct t as [|t]; [reflexivity|].
  cbn [accumulate_from nth]. rewrite IH by lia. reflexivity.
Qed.

(** Entry [t] of [np.cumprod] is the product of the first [t+1] entries. *)
Lemma accumulate_mul_nth (xs : list F) (t : nat) (d : F) :
  (t < List.length xs)%nat ->
  nth t (accumulate fmul xs) d = running_product (firstn (S t) xs).
Proof.
  destruct xs as [|x xs]; intros Hlt; cbn in Hlt; [lia|].
  destruct t as [|t]; [reflexivity|].
  cbn [accumulate nth]. rewrite accumulate_from_nth by lia. reflexivity.
Qed.

Lemma firstn_fill (neutral : F) (xs : list F) (n : nat) :
  Forall (fun x => fisnan x = false) (firstn n xs) ->
  firstn n (map (fun x => if fisnan x then neutral else x) xs) = firstn n xs.
Proof.
  intros Hok. rewrite firstn_map.
  rewrite <- (map_id (firstn n xs)) at 2.
  apply map_ext_Forall. revert Hok. apply Forall_impl.
  intros x ->. reflexivity.
Qed.

Lemma cumprod_nth (xs : list F) (t : nat) (d : F) :
  (t < List.length xs)%nat ->
  Forall (fun x => fisnan x = false) (firstn (S t) xs) ->
  nth t (cumprod xs) d = running_product (firstn (S t) xs).
Proof.
  intros Hlt Hok. unfold cumprod, pandas_cum. cbv zeta.
  set (filled := map (fun x => if fisnan x then fone else x) xs).
  assert (Hlen : List.length (accumulate fmul filled) = List.length xs).
  { rewrite accumulate_length. subst filled. apply length_map. }
  rewrite (nth_map_lt _ _ d (d, d))
    by (rewrite length_combine, Hlen; lia).
  rewrite combine_nth by (symmetry; exact Hlen). cbn [fst snd].
  assert (Hnan : fisnan (nth t xs d) = false).
  { rewrite Forall_forall in Hok. apply Hok.
    rewrite <- (firstn_skipn (S t) xs) at 1.
    rewrite app_nth1 by (rewrite length_firstn; lia).
    apply nth_In. rewrite length_firstn. lia. }
  rewrite Hnan.
  rewrite accumulate_mul_nth by (subst filled; rewrite length_map; exact Hlt).
  subst filled. rewrite firstn_fill by exact Hok. reflexivity.
Qed.

(** C4.  In every frame returned for a portfolio, the cumulative return of
    row [t] is the product of (1 + return) over the rows up to and
    including [t], the first row's own return included, scaled by 100;
    it is stated for rows up to which no factor is a missing value. *)
Theorem cumulative_return_running_product (data_dir : @DataDir F)
        (portfolio : Portfolio) (start_date end_date : option Timestamp)
        (frame : @PortfolioData F) (t : nat) :
  portfolio_frame data_dir portfolio start_date end_date = Some frame ->
  (t < List.length frame)%nat ->
  Forall (fun r => fisnan (fadd fone r) = false)
         (firstn (S t) (map portfolio_return frame)) ->
  nth t (map cumulative_return frame) fzero =
  fmul (running_product
          (map (fadd fone) (firstn (S t) (map portfolio_return frame))))
       (of_Z 100).
Proof.
  intros Hframe Hlt Hok.
  destruct (portfolio_frame_rows _ _ _ _ Hframe) as (rows & _ & ->).
  rewrite frame_returns in *. rewrite frame_cumulative.
  rewrite length_map, length_combine, cumulative_of_length in Hlt.
  unfold cumulative_of.
  assert (Hlen : List.length (returns_of rows) = List.length rows)
    by (unfold returns_of; apply length_map).
  rewrite (nth_map_lt _ _ fzero fzero)
    by (unfold cumprod; rewrite pandas_cum_length, length_map, Hlen; lia).
  rewrite cumprod_nth.
  - rewrite firstn_map. reflexivity.
  - rewrite length_map, Hlen. lia.
  - rewrite firstn_map. apply Forall_map. exact Hok.
Qed.

End CumulativeFacts.

(** C4, on the two-ticker scenario at its third row. *)
Lemma cumulative_return_scenario :
  exists frame,
    portfolio_frame scenario_dir two_fund None None = Some frame /\
    (2 < List.length frame)%nat /\
    nth 2 (map cumulative_return frame) fzero =
    fmul (running_product
            (map (fadd fone) (firstn 3 (map portfolio_return frame))))
         (of_Z 100).
Proof.
  eexists. split; [reflexivity|]. split; [cbn; lia|].
  apply (@cumulative_return_running_product Q NumQ scenario_dir two_fund
           None None _ 2%nat).
  - reflexivity.
  - cbn; lia.
  - repeat constructor.
Defined.

(** The scenario evaluated: returns 0, 0.006 and 0.008, cumulative returns
    100, 100.6 and 101.4048. *)
Example scenario_values :
  exists frame,
    get_portfolio_data scenario_dir "Two-fund Portfolio" None None
    = Some frame /\
    map row_date frame = [day1; day2; day3] /\
    map Qred (map portfolio_return frame) = map Qred [0; 0.006; 0.008]%Q /\
    map Qred (map cumulative_return frame) = map Qred [100; 100.6; 101.4048]%Q.
Proof.
  eexists. split; [reflexivity|]. repeat split; vm_compute; reflexivity.
Qed.

(** ** The maximum drawdown, on exact rationals *)

Section DrawdownFacts.
Open Scope Q_scope.

Lemma fmax_Q (a b : Q) : fmax a b = if Qle_bool b a then a else b.
Proof. unfold fmax. cbn. destruct (Qle_bool b a); reflexivity. Qed.

Lemma fmin_Q (a b : Q) : fmin a b = if Qle_bool a b then a else b.
Proof. unfold fmin. cbn. destruct (Qle_bool a b); reflexivity. Qed.

Lemma fmax_Q_ge (a b : Q) : a <= fmax a b /\ b <= fmax a b.
Proof.
  rewrite fmax_Q. destruct (Qle_bool b a) eqn:E.
  - apply Qle_bool_iff in E. split; [apply Qle_refl|exact E].
  - assert (~ b <= a) by (rewrite <- Qle_bool_iff; congruence).
    split; [|apply Qle_refl]. apply Qlt_le_weak, Qnot_le_lt; assumption.
Qed.

Lemma fmax_Q_eq_r (a b : Q) : b == fmax a b <-> a <= b.
Proof.
  rewrite fmax_Q. destruct (Qle_bool b a) eqn:E.
  - apply Qle_bool_iff in E. split.
    + intros ->. apply Qle_refl.
    + intros Hab. apply Qle_antisym; assumption.
  - assert (Hn : ~ b <= a) by (rewrite <- Qle_bool_iff; congruence).
    split; [|reflexivity]. intros _.
    apply Qlt_le_weak, Qnot_le_lt; assumption.
Qed.

Lemma fmin_Q_spec (a b : Q) :
  fmin a b <= a /\ fmin a b <= b /\ (fmin a b = a \/ fmin a b = b).
Proof.
  rewrite fmin_Q. destruct (Qle_bool a b) eqn:E.
  - apply Qle_bool_iff in E. repeat split; auto. apply Qle_refl.
  - assert (Hn : ~ a <= b) by (rewrite <- Qle_bool_iff; congruence).
    repeat split; auto; [|apply Qle_refl].
    apply Qlt_le_weak, Qnot_le_lt; assumption.
Qed.

(** One drawdown term [c / m - 1] for a positive value [c] below its
    running maximum [m]. *)
Lemma drawdown_term_nonpos (c m : Q) :
  0 < c -> c <= m -> c / m - 1 <= 0.
Proof.
  intros Hc Hcm. assert (Hm : 0 < m) by (eapply Qlt_le_trans; eauto).
  assert (Hdiv : c / m <= 1).
  { apply Qle_shift_div_r; [exact Hm|]. rewrite Qmult_1_l. exact Hcm. }
  revert Hdiv. generalize (c / m). intros q Hq. lra.
Qed.

Lemma drawdown_term_zero (c m : Q) :
  0 < c -> c <= m -> (c / m - 1 == 0 <-> c == m).
Proof.
  intros Hc Hcm. assert (Hm : 0 < m) by (eapply Qlt_le_trans; eauto).
  assert (Hm0 : ~ m == 0) by (intros E; rewrite E in Hm; inversion Hm).
  split.
  - intros Hz. assert (Hone : c / m == 1)
      by (revert Hz; generalize (c / m); intros q Hq; lra).
    transitivity (m * (c / m)); [symmetry; apply Qmult_div_r; exact Hm0|].
    rewrite Hone. apply Qmult_1_r.
  - intros ->. unfold Qdiv. rewrite Qmult_inv_r by exact Hm0. reflexivity.
Qed.

End DrawdownFacts.

Section DrawdownClaim.
Open Scope Q_scope.

Lemma cummax_from_cons (mo : option Q) (c : Q) (t : list Q) :
  cummax_from mo (c :: t) =
  match mo with None => c | Some m => fmax m c end
  :: cummax_from (Some match mo with None => c | Some m => fmax m c end) t.
Proof. reflexivity. Qed.

Lemma cummax_from_length (xs : list Q) :
  forall mo, List.length (cummax_from mo xs) = List.length xs.
Proof.
  induction xs as [|c t IH]; intros mo; [reflexivity|].
  rewrite cummax_from_cons. cbn [List.length]. rewrite IH. reflexivity.
Qed.

(** Every value lies below the running maximum next to it. *)
Lemma cummax_pairs (cum : list Q) :
  forall mo,
    Forall (fun c => 0 < c) cum ->
    Forall (fun p => 0 < fst p /\ fst p <= snd p)
           (combine cum (cummax_from mo cum)).
Proof.
  induction cum as [|c t IH]; intros mo Hpos; [constructor|].
  rewrite cummax_from_cons. cbn [combine].
  inversion Hpos as [|? ? Hc Ht]; subst. constructor.
  - cbn [fst snd]. split; [exact Hc|].
    destruct mo as [m|]; [apply fmax_Q_ge|apply Qle_refl].
  - apply IH. exact Ht.
Qed.

(** The values equal their running maxima exactly on a series that never
    falls (and that starts at or above the maximum carried in). *)
Lemma cummax_eq_iff (cum : list Q) :
  forall mo,
    Forall (fun p => fst p == snd p) (combine cum (cummax_from mo cum)) <->
    non_decreasing cum /\
    match mo, cum with
    | Some m, c :: _ => m <= c
    | _, _ => True
    end.
Proof.
  induction cum as [|c t IH]; intros mo.
  - cbn. split; [intros _; destruct mo; auto|constructor].
  - rewrite cummax_from_cons. cbn [combine].
    set (m' := match mo with None => c | Some m => fmax m c end).
    rewrite Forall_cons_iff, IH. cbn [fst snd].
    assert (Hhead : c == m' <->
                    match mo with Some m => m <= c | None => True end).
    { subst m'. destruct mo as [m|]; [apply fmax_Q_eq_r|].
      split; [auto|reflexivity]. }
    destruct t as [|c2 t'].
    + cbn [non_decreasing]. tauto.
    + change (non_decreasing (c :: c2 :: t'))
        with (c <= c2 /\ non_decreasing (c2 :: t')).
      split.
      * intros (Hcm & Hnd & Hm'). split; [|apply Hhead; exact Hcm].
        split; [rewrite Hcm; exact Hm'|exact Hnd].
      * intros ((Hcc2 & Hnd) & Hmo). apply Hhead in Hmo.
        split; [exact Hmo|]. split; [exact Hnd|].
        rewrite <- Hmo. exact Hcc2.
Qed.

(** The fold of [Series.min()] returns an element that is below all. *)
Lemma series_min_from (xs : list Q) :
  forall m, exists m',
    fold_left min_step xs (Some m) = Some m' /\
    m' <= m /\ (forall x, In x xs -> m' <= x) /\ (m' = m \/ In m' xs).
Proof.
  induction xs as [|x t IH]; intros m.
  - exists m. cbn. repeat split; auto. apply Qle_refl. intros ? [].
  - cbn [fold_left]. change (min_step (Some m) x) with (Some (fmin m x)).
    destruct (IH (fmin m x)) as (m' & Hfold & Hle & Hall & Hin).
    destruct (fmin_Q_spec m x) as (Hl & Hr & Hcase).
    exists m'. split; [exact Hfold|]. split; [eapply Qle_trans; eauto|].
    split.
    + intros y [<-|Hy]; [eapply Qle_trans; eauto|auto].
    + destruct Hin as [->|Hin]; [|right; right; exact Hin].
      destruct Hcase as [->| ->]; [left; reflexivity|right; left; reflexivity].
Qed.

Lemma series_min_nonempty (x : Q) (t : list Q) :
  exists m, series_min (x :: t) = Some m /\
            In m (x :: t) /\ forall y, In y (x :: t) -> m <= y.
Proof.
  unfold series_min. cbn [fold_left].
  change (min_step None x) with (Some x).
  destruct (series_min_from t x) as (m & Hfold & Hle & Hall & Hin).
  exists m. split; [exact Hfold|]. split.
  - destruct Hin as [->|Hin]; [left; reflexivity|right; exact Hin].
  - intros y [<-|Hy]; auto.
Qed.

(** C6.  For a non-empty cumulative return series of positive values the
    maximum drawdown, the least of [cum[t] / cummax[t] - 1], exists, is at
    most 0, and is 0 exactly when the series never falls. *)
Theorem max_drawdown_nonpositive (cum : list Q) :
  cum <> [] ->
  Forall (fun c => 0 < c) cum ->
  exists m, max_drawdown cum = Some m /\
            m <= 0 /\ (m == 0 <-> non_decreasing cum).
Proof.
  intros Hne Hpos. unfold max_drawdown.
  pose proof (cummax_pairs None Hpos) as Hpairs. fold (cummax cum) in Hpairs.
  pose proof (cummax_eq_iff cum None) as Heq. fold (cummax cum) in Heq.
  assert (Hterms : Forall (fun d => d <= 0) (drawdowns cum)).
  { unfold drawdowns. apply Forall_map. revert Hpairs. apply Forall_impl.
    intros p [Hp Hle]. apply drawdown_term_nonpos; assumption. }
  assert (Hzero : Forall (fun d => d == 0) (drawdowns cum) <->
                  non_decreasing cum).
  { transitivity (Forall (fun p => fst p == snd p) (combine cum (cummax cum)));
      [|rewrite Heq; tauto].
    unfold drawdowns. rewrite Forall_map.
    rewrite !Forall_forall. rewrite Forall_forall in Hpairs.
    split; intros Hall p Hp; destruct (Hpairs p Hp) as [Hc Hle].
    - apply (drawdown_term_zero Hc Hle), Hall, Hp.
    - apply (drawdown_term_zero Hc Hle), Hall, Hp. }
  destruct (drawdowns cum) as [|d ds] eqn:Ed.
  - exfalso. apply Hne. destruct cum as [|c t]; [reflexivity|].
    unfold drawdowns, cummax in Ed. rewrite cummax_from_cons in Ed.
    discriminate Ed.
  - destruct (series_min_nonempty d ds) as (m & Hmin & Hin & Hlow).
    exists m. split; [exact Hmin|].
    rewrite Forall_forall in Hterms. split; [apply Hterms, Hin|].
    rewrite <- Hzero, Forall_forall. split.
    + intros Hm y Hy. apply Qle_antisym; [apply Hterms, Hy|].
      rewrite <- Hm. apply Hlow, Hy.
    + intros Hall. apply Hall, Hin.
Qed.

End DrawdownClaim.

(** C6, on a series that rises, falls by a tenth and recovers. *)
Lemma max_drawdown_nonpositive_example :
  [100; 110; 99; 120]%Q <> [] /\
  Forall (fun c => 0 < c)%Q [100; 110; 99; 120]%Q /\
  exists m, max_drawdown [100; 110; 99; 120]%Q = Some m /\
            (m <= 0)%Q /\ (m == 0 <-> non_decreasing [100; 110; 99; 120]%Q)%Q.
Proof.
  split; [discriminate|]. split; [repeat (constructor; [reflexivity|]); constructor|].
  apply (@max_drawdown_nonpositive [100; 110; 99; 120]%Q).
  - discriminate.
  - repeat (constructor; [reflexivity|]); constructor.
Defined.

Example max_drawdown_value :
  option_map Qred (max_drawdown [100; 110; 99; 120]%Q) = Some (Qred (-0.1)%Q).
Proof. vm_compute. reflexivity. Qed.

(** ** Annualised statistics *)

Section NaNFacts.

Lemma is_nan_Prim2SF (x : float) :
  FloatOps.Prim2SF x = SpecFloat.S754_nan -> PrimFloat.is_nan x = true.
Proof.
  intros Hx. unfold PrimFloat.is_nan. rewrite FloatAxioms.eqb_spec, Hx.
  reflexivity.
Qed.

Lemma Prim2SF_nan : FloatOps.Prim2SF PrimFloat.nan = SpecFloat.S754_nan.
Proof. reflexivity. Qed.

Lemma div_nan_r (x y : float) :
  FloatOps.Prim2SF y = SpecFloat.S754_nan ->
  FloatOps.Prim2SF (PrimFloat.div x y) = SpecFloat.S754_nan.
Proof.
  intros Hy. rewrite FloatAxioms.div_spec, Hy.
  unfold FloatAxioms.SF64div, SpecFloat.SFdiv.
  destruct (FloatOps.Prim2SF x); reflexivity.
Qed.

Lemma sqrt_nan (x : float) :
  FloatOps.Prim2SF x = SpecFloat.S754_nan ->
  FloatOps.Prim2SF (PrimFloat.sqrt x) = SpecFloat.S754_nan.
Proof.
  intros Hx. rewrite FloatAxioms.sqrt_spec, Hx. reflexivity.
Qed.

Lemma mul_nan_l (x y : float) :
  FloatOps.Prim2SF x = SpecFloat.S754_nan ->
  FloatOps.Prim2SF (PrimFloat.mul x y) = SpecFloat.S754_nan.
Proof.
  intros Hx. rewrite FloatAxioms.mul_spec, Hx. reflexivity.
Qed.

Lemma eqb_nan_l (x y : float) :
  FloatOps.Prim2SF x = SpecFloat.S754_nan -> PrimFloat.eqb x y = false.
Proof.
  intros Hx. rewrite FloatAxioms.eqb_spec, Hx. reflexivity.
Qed.

(** The sample standard deviation of fewer than two observations is not
    a number. *)
Lemma std_single_nan (xs : list float) :
  (List.length (present xs) <= 1)%nat ->
  FloatOps.Prim2SF (std xs) = SpecFloat.S754_nan.
Proof.
  intros Hlen. unfold std.
  replace (Z.of_nat (List.length (present xs)) <=? 1) with true
    by (symmetry; apply Z.leb_le; lia).
  apply sqrt_nan, div_nan_r, Prim2SF_nan.
Qed.

(** C5 (as amended).  The statistics are the three formulas of the code:
    the annual return and risk from the mean and the sample standard
    deviation of the daily returns, and the ratio of the two guarded
    against a risk equal to 0 only.  A risk that is not a number compares
    unequal to 0, so the ratio is then not a number either; this is the
    case for every series with a single observation. *)
Theorem compute_stats_formulas (data : @PortfolioData float) :
  let returns := map portfolio_return data in
  let st := compute_stats data in
  annual_return st = fsub (fpow (fadd fone (mean returns)) 252) fone /\
  annual_risk st = fmul (std returns) (fsqrt (of_Z 252)) /\
  (feqb (annual_risk st) (of_Z 0) = true -> sharpe st = of_Z 0) /\
  (feqb (annual_risk st) (of_Z 0) = false ->
   sharpe st = fdiv (annual_return st) (annual_risk st)) /\
  (List.length data = 1%nat ->
   fisnan (annual_risk st) = true /\ fisnan (sharpe st) = true).
Proof.
  cbv zeta. unfold compute_stats. cbn [annual_return annual_risk sharpe].
  split; [reflexivity|]. split; [reflexivity|]. split; [|split].
  - intros ->. reflexivity.
  - intros ->. reflexivity.
  - intros Hlen.
    assert (Hrisk : FloatOps.Prim2SF
                      (fmul (std (map portfolio_return data)) (fsqrt (of_Z 252)))
                    = SpecFloat.S754_nan).
    { apply mul_nan_l, std_single_nan. unfold present.
      etransitivity; [apply filter_length_le|]. rewrite length_map. lia. }
    split; [apply is_nan_Prim2SF, Hrisk|].
    change (@feqb float NumFloat) with PrimFloat.eqb.
    rewrite (@eqb_nan_l _ _ Hrisk). cbn [negb].
    apply is_nan_Prim2SF, div_nan_r, Hrisk.
Qed.

End NaNFacts.

(** C5: for one trading day the ratio is not a number. *)
Lemma sharpe_single_day_nan :
  single_day <> [] /\
  fisnan (annual_risk (compute_stats single_day)) = true /\
  feqb (annual_risk (compute_stats single_day)) (of_Z 0) = false /\
  fisnan (sharpe (compute_stats single_day)) = true.
Proof.
  split; [discriminate|]. repeat split; vm_compute; reflexivity.
Qed.

(** ** The catalog's weights *)

Section WeightFacts.
Open Scope Q_scope.

(** A weighted sum of values in [lo, hi] lies between [lo] and [hi] times
    the sum of the (non-negative) weights. *)
Lemma weighted_sum_bounds (lo hi : Q) (portfolio : Portfolio) :
  forall (rs : list Q) (accS accW : Q),
    Forall (fun w : Q => 0 < w) (weights portfolio) ->
    List.length rs = List.length portfolio ->
    Forall (fun r => lo <= r /\ r <= hi) rs ->
    lo * accW <= accS /\ accS <= hi * accW ->
    lo * fold_left Qplus (weights portfolio) accW
    <= fold_left Qplus (map cell_value (full_row portfolio rs)) accS /\
    fold_left Qplus (map cell_value (full_row portfolio rs)) accS
    <= hi * fold_left Qplus (weights portfolio) accW.
Proof.
  induction portfolio as [|item rest IH]; intros rs accS accW Hw Hlen Hrs Hacc.
  - destruct rs; [|discriminate]. cbn. exact Hacc.
  - destruct rs as [|r rs]; [discriminate|].
    inversion Hw as [|? ? Hw0 Hwrest]; subst.
    inversion Hrs as [|? ? Hr Hrsrest]; subst.
    cbn [weights full_row combine map fold_left fst snd] in *.
    change (cell_value (Some (fmul r (lit (snd item)))))
      with (r * lit (snd item)).
    apply IH; auto.
    destruct Hr as [Hlo Hhi]. destruct Hacc as [HaccL HaccH].
    assert (H1 : lo * lit (snd item) <= r * lit (snd item))
      by (apply Qmult_le_compat_r; [exact Hlo|apply Qlt_le_weak, Hw0]).
    assert (H2 : r * lit (snd item) <= hi * lit (snd item))
      by (apply Qmult_le_compat_r; [exact Hhi|apply Qlt_le_weak, Hw0]).
    rewrite !Qmult_plus_distr_r. revert HaccL HaccH H1 H2.
    generalize (lo * accW) (hi * accW) (lo * lit (snd item))
               (r * lit (snd item)) (hi * lit (snd item)).
    intros a b c d e HaccL HaccH H1 H2. clear - HaccL HaccH H1 H2.
    split; lra.
Qed.

Lemma convex_weights_intro (portfolio : Portfolio) :
  Forall (fun w : Q => 0 < w) (weights portfolio) ->
  weight_sum portfolio == 1 ->
  convex_weights portfolio.
Proof.
  intros Hpos Hsum. split; [exact Hpos|]. split; [exact Hsum|].
  intros rs lo hi Hlen Hrs.
  destruct (@weighted_sum_bounds lo hi portfolio rs 0 0 Hpos Hlen Hrs)
    as [Hl Hh]; [split; lra|].
  fold (weight_sum (F := Q) portfolio) in Hl, Hh.
  unfold row_sum. change (@fzero Q NumQ) with 0.
  change (@fadd Q NumQ) with Qplus.
  rewrite Hsum in Hl, Hh. split; lra.
Qed.

End WeightFacts.

(** C10.  In every portfolio of the catalog the weights are positive and
    sum to exactly 1, as decimals and also when added as binary64 numbers
    in the order of the definition; hence the return of a date on which
    all tickers have data is a convex combination of their returns. *)
Theorem catalog_weights_convex :
  Forall (fun entry =>
            convex_weights (snd entry) /\
            forallb (fun w => PrimFloat.ltb (of_Z 0) w) (weights (snd entry))
            = true /\
            @weight_sum float NumFloat (snd entry) = of_Z 1)
         portfolios.
Proof.
  unfold portfolios.
  repeat (apply Forall_cons;
          [ split;
            [ apply convex_weights_intro;
              [ repeat (apply Forall_cons; [vm_compute; reflexivity|]);
                apply Forall_nil
              | vm_compute; reflexivity ]
            | split; vm_compute; reflexivity ]
          | ]).
  apply Forall_nil.
Qed.

(** * Further properties *)

(** ** The order of timestamps *)

Lemma ts_leb_iff (a b : Timestamp) :
  ts_leb a b = true <->
  year a < year b \/
  (year a = year b /\
   (month a < month b \/ (month a = month b /\ day a <= day b))).
Proof.
  unfold ts_leb, ts_compare.
  destruct (Z.compare_spec (year a) (year b));
    destruct (Z.compare_spec (month a) (month b));
    destruct (Z.compare_spec (day a) (day b));
    split; intros; try discriminate; try reflexivity; lia.
Qed.

Lemma ts_ltb_iff (a b : Timestamp) :
  ts_ltb a b = true <->
  year a < year b \/
  (year a = year b /\
   (month a < month b \/ (month a = month b /\ day a < day b))).
Proof.
  unfold ts_ltb, ts_compare.
  destruct (Z.compare_spec (year a) (year b));
    destruct (Z.compare_spec (month a) (month b));
    destruct (Z.compare_spec (day a) (day b));
    split; intros; try discriminate; try reflexivity; lia.
Qed.

Lemma ts_leb_refl (a : Timestamp) : ts_leb a a = true.
Proof. apply ts_leb_iff. lia. Qed.

Lemma ts_leb_trans (a b c : Timestamp) :
  ts_leb a b = true -> ts_leb b c = true -> ts_leb a c = true.
Proof. rewrite !ts_leb_iff. lia. Qed.

Lemma ts_ltb_false_leb (a b : Timestamp) :
  ts_ltb a b = false -> ts_leb b a = true.
Proof.
  intros Hlt. apply ts_leb_iff.
  destruct (ts_ltb a b) eqn:E; [discriminate|].
  assert (Hn : ~ (year a < year b \/
                  (year a = year b /\
                   (month a < month b \/ (month a = month b /\ day a < day b)))))
    by (rewrite <- ts_ltb_iff; congruence).
  lia.
Qed.

Lemma ts_ltb_leb (a b : Timestamp) : ts_ltb a b = true -> ts_leb a b = true.
Proof. rewrite ts_ltb_iff, ts_leb_iff. lia. Qed.

Lemma ts_eqb_sym (a b : Timestamp) : ts_eqb a b = ts_eqb b a.
Proof.
  destruct (ts_eqb a b) eqn:E1, (ts_eqb b a) eqn:E2; try reflexivity.
  - apply ts_eqb_eq in E1. subst. rewrite (proj2 (ts_eqb_eq b b) eq_refl) in E2.
    discriminate.
  - apply ts_eqb_eq in E2. subst. rewrite (proj2 (ts_eqb_eq a a) eq_refl) in E1.
    discriminate.
Qed.

(** A date within the month that starts at [nm] is a date of that month. *)
Lemma window_month_number (nm d : Timestamp) :
  valid_month nm -> day nm = 1 -> valid_date d ->
  ts_leb nm d = true -> ts_ltb d (plus_one_month nm) = true ->
  month_number d = month_number nm.
Proof.
  unfold valid_month, valid_date, month_number, plus_one_month.
  intros Hnm Hday [Hm Hd]. rewrite ts_leb_iff, ts_ltb_iff.
  destruct (month nm =? 12) eqn:E; cbn [year month day].
  - apply Z.eqb_eq in E. lia.
  - apply Z.eqb_neq in E. lia.
Qed.

(** ** The contribution column of [simulate_growth] *)

Section ContributionFacts.
Context {F : Type} `{NF : Num F}.

Lemma simulate_growth_columns (row : PortfolioRow) (rows : list PortfolioRow)
      (init mc : F) :
  simulate_growth (Some (row :: rows)) init mc =
  Returned (Some (mkInvestments
                    (map row_date (row :: rows))
                    (map portfolio_return (row :: rows))
                    (contribution_column (map row_date (row :: rows)) init mc)
                    (cumsum (contribution_column (map row_date (row :: rows))
                                                 init mc))
                    (snd (value_run (map portfolio_return (row :: rows))
                                    (contribution_column
                                       (map row_date (row :: rows)) init mc)
                                    init
                                    (List.length (row :: rows))
                                    (List.length (row :: rows)))))).
Proof.
  unfold simulate_growth, value_run, contribution_column.
  cbn [map]. rewrite map_const_repeat.
  cbn [List.length]. rewrite !length_map. reflexivity.
Qed.

Lemma loc_set_length (idx : list Timestamp) (d : Timestamp) (v : F)
      (col : list F) :
  List.length col = List.length idx ->
  List.length (loc_set idx d v col) = List.length idx.
Proof.
  intros Hlen. unfold loc_set. rewrite length_map, length_combine. lia.
Qed.

Lemma nth_loc_set (idx : list Timestamp) (d d0 : Timestamp) (v dflt : F)
      (col : list F) (i : nat) :
  List.length col = List.length idx -> (i < List.length idx)%nat ->
  nth i (loc_set idx d v col) dflt =
  if ts_eqb (nth i idx d0) d then v else nth i col dflt.
Proof.
  intros Hlen Hi. unfold loc_set.
  rewrite (nth_map_lt _ _ dflt (d0, dflt))
    by (rewrite length_combine; lia).
  rewrite combine_nth by (symmetry; exact Hlen). reflexivity.
Qed.

(** Induction over the passes of the scheduling loop: a property of the
    current date and the column that every pass keeps, with or without an
    assignment, holds of the column the loop returns. *)
Lemma contribution_loop_ind (I : Timestamp -> list F -> Prop)
      (idx : list Timestamp) (first end_date : Timestamp) (mc : F) :
  (forall cur col,
      I cur col -> I (plus_one_month (first_of_next_month cur)) col) ->
  (forall cur col d,
      I cur col ->
      In d (index_between idx (first_of_next_month cur)
                          (plus_one_month (first_of_next_month cur))) ->
      ts_eqb d first = false ->
      I (plus_one_month (first_of_next_month cur)) (loc_set idx d mc col)) ->
  forall fuel cur col,
    I cur col ->
    exists cur', I cur' (contribution_loop fuel idx first end_date mc cur col).
Proof.
  intros Hskip Hset. induction fuel as [|fuel IH]; intros cur col HI.
  - exists cur. exact HI.
  - cbn [contribution_loop]. destruct (ts_leb cur end_date); [|eauto].
    unfold contribution_step.
    destruct (index_between idx (first_of_next_month cur)
                (plus_one_month (first_of_next_month cur))) as [|d ds] eqn:E.
    + apply IH, Hskip, HI.
    + destruct (ts_eqb d first) eqn:Ed; cbn [negb].
      * apply IH, Hskip, HI.
      * apply IH, Hset; [exact HI| |exact Ed]. rewrite E. left. reflexivity.
Qed.

(** What the loop keeps of the column: its length, the initial investment
    in row 0, and nothing but 0 or the monthly contribution below. *)
Lemma contribution_column_shape (first : Timestamp) (rest : list Timestamp)
      (init mc : F) :
  let col := contribution_column (first :: rest) init mc in
  List.length col = S (List.length rest) /\
  nth 0 col fzero = init /\
  forall i, (0 < i < S (List.length rest))%nat ->
            nth i col fzero = fzero \/ nth i col fzero = mc.
Proof.
  cbv zeta. unfold contribution_column.
  set (idx := first :: rest).
  set (I := fun (_ : Timestamp) (col : list F) =>
              List.length col = List.length idx /\
              nth 0 col fzero = init /\
              forall i, (0 < i < List.length idx)%nat ->
                        nth i col fzero = fzero \/ nth i col fzero = mc).
  destruct (@contribution_loop_ind I idx first (last idx first) mc) with
    (fuel := loop_fuel first (last idx first)) (cur := first)
    (col := list_set 0 init (map (fun _ : Timestamp => fzero) idx))
    as [cur' Hfinal].
  - intros cur col HI. exact HI.
  - intros cur col d (Hlen & H0 & Hrest) _ Hd. subst I. cbv beta.
    split; [apply loc_set_length, Hlen|]. split.
    + rewrite (@nth_loc_set idx d first mc fzero col 0%nat Hlen)
        by (subst idx; cbn; lia).
      subst idx. cbn [nth]. rewrite ts_eqb_sym, Hd. exact H0.
    + intros i Hi. rewrite (@nth_loc_set idx d first mc fzero col i Hlen) by lia.
      destruct (ts_eqb (nth i idx first) d); [right; reflexivity|].
      apply Hrest, Hi.
  - subst I. cbv beta. rewrite list_set_length, length_map.
    split; [reflexivity|]. split.
    + subst idx. reflexivity.
    + intros i Hi. left. rewrite nth_list_set_other by lia.
      rewrite (nth_map_lt _ _ fzero first) by lia. reflexivity.
  - exact Hfinal.
Qed.

End ContributionFacts.

Section ContributionProperties.
Context {F : Type} `{NF : Num F}.

(** X3.  In every trajectory the contribution column has one entry per
    date; row 0 holds the initial investment, which no monthly
    contribution overwrites, and every later row holds 0 or the monthly
    contribution. *)
Theorem simulate_growth_contribution_entries
        (row : PortfolioRow) (rows : list PortfolioRow) (init mc : F) :
  exists inv,
    simulate_growth (Some (row :: rows)) init mc = Returned (Some inv) /\
    List.length (contribution inv) = S (List.length rows) /\
    List.length (cumulative_contribution inv) = S (List.length rows) /\
    nth 0 (contribution inv) fzero = init /\
    forall i, (0 < i < S (List.length rows))%nat ->
              nth i (contribution inv) fzero = fzero \/
              nth i (contribution inv) fzero = mc.
Proof.
  eexists. split; [apply simulate_growth_columns|].
  cbn [contribution cumulative_contribution].
  destruct (contribution_column_shape (row_date row) (map row_date rows) init mc)
    as (Hlen & H0 & Hrest).
  rewrite length_map in Hlen, Hrest. cbn [map].
  split; [exact Hlen|]. split.
  - unfold cumsum. rewrite pandas_cum_length. exact Hlen.
  - split; [exact H0|exact Hrest].
Qed.

Lemma day_first_of_next_month (t : Timestamp) : day (first_of_next_month t) = 1.
Proof. unfold first_of_next_month. destruct (month t =? 12); reflexivity. Qed.

(** The loop assigns the monthly contribution only to dates of examined
    months. *)
Lemma contribution_column_examined (first : Timestamp) (rest : list Timestamp)
      (init mc : F) :
  Forall valid_date (first :: rest) ->
  forall i, (0 < i < S (List.length rest))%nat ->
    examined_month first (nth i (first :: rest) first) = false ->
    nth i (contribution_column (first :: rest) init mc) fzero = fzero.
Proof.
  intros Hvalid. unfold contribution_column.
  set (idx := first :: rest) in *.
  set (I := fun (cur : Timestamp) (col : list F) =>
              valid_month cur /\
              month_number first <= month_number cur /\
              Z.even (month_number cur - month_number first) = true /\
              List.length col = List.length idx /\
              forall i, (0 < i < List.length idx)%nat ->
                        examined_month first (nth i idx first) = false ->
                        nth i col fzero = fzero).
  assert (Hnext : forall cur,
             month_number (plus_one_month (first_of_next_month cur))
             = month_number cur + 2).
  { intros cur.
    rewrite month_number_plus_one_month, month_number_first_of_next_month. lia. }
  assert (Hmove : forall cur col col',
             I cur col ->
             List.length col' = List.length idx ->
             (forall i, (0 < i < List.length idx)%nat ->
                        examined_month first (nth i idx first) = false ->
                        nth i col' fzero = fzero) ->
             I (plus_one_month (first_of_next_month cur)) col').
  { intros cur col col' (Hv & Hle & Hev & _ & _) Hlen' Hrest'. subst I. cbv beta.
    split; [apply valid_month_plus_one_month,
                  valid_month_first_of_next_month, Hv|].
    rewrite Hnext. split; [lia|]. split; [|split; assumption].
    replace (month_number cur + 2 - month_number first)
      with (month_number cur - month_number first + 2 * 1) by lia.
    rewrite Z.even_add_mul_2. exact Hev. }
  destruct (@contribution_loop_ind F I idx first (last idx first) mc) with
    (fuel := loop_fuel first (last idx first)) (cur := first)
    (col := list_set 0 init (map (fun _ : Timestamp => fzero) idx))
    as [cur' Hfinal].
  - intros cur col HI. apply (Hmove cur col col HI); apply HI.
  - intros cur col d HI Hin _. pose proof HI as (Hv & Hle & Hev & Hlen & Hrest).
    apply (Hmove cur col _ HI); [apply loc_set_length, Hlen|].
    intros i Hi Hex.
    rewrite (@nth_loc_set F idx d first mc fzero col i Hlen) by lia.
    destruct (ts_eqb (nth i idx first) d) eqn:Ed; [|apply Hrest; assumption].
    exfalso. apply ts_eqb_eq in Ed. rewrite Ed in Hex.
    unfold index_between in Hin. apply filter_In in Hin as [Hidx Hwin].
    apply andb_true_iff in Hwin as [Hlo Hhi].
    rewrite Forall_forall in Hvalid.
    pose proof (@window_month_number (first_of_next_month cur) d
                  (valid_month_first_of_next_month Hv)
                  (day_first_of_next_month cur)
                  (Hvalid d Hidx) Hlo Hhi) as Hmn.
    rewrite month_number_first_of_next_month in Hmn.
    unfold examined_month in Hex. rewrite Hmn in Hex.
    replace (month_number cur + 1 - month_number first)
      with (Z.succ (month_number cur - month_number first)) in Hex by lia.
    rewrite Z.odd_succ, Hev, andb_true_r in Hex.
    apply Z.ltb_ge in Hex. lia.
  - subst I. cbv beta. rewrite Forall_forall in Hvalid.
    split; [apply (Hvalid first); left; reflexivity|].
    split; [lia|]. rewrite Z.sub_diag. split; [reflexivity|].
    rewrite list_set_length, length_map. split; [reflexivity|].
    intros i Hi _. rewrite nth_list_set_other by lia.
    rewrite (nth_map_lt _ _ fzero first) by lia. reflexivity.
  - intros i Hi Hex. destruct Hfinal as (_ & _ & _ & _ & Hrest).
    apply Hrest; [subst idx; cbn [List.length]; lia|exact Hex].
Qed.

(** X4.  On calendar dates, a row after the first can hold the monthly
    contribution only if its month lies an odd number of months after the
    month of the first date: rows in the first date's own month, in an
    earlier month or an even number of months later keep a contribution
    of 0. *)
Theorem simulate_growth_contribution_months
        (row : PortfolioRow) (rows : list PortfolioRow) (init mc : F) :
  Forall valid_date (map row_date (row :: rows)) ->
  exists inv,
    simulate_growth (Some (row :: rows)) init mc = Returned (Some inv) /\
    forall i, (0 < i < S (List.length rows))%nat ->
      examined_month (row_date row) (nth i (index inv) (row_date row)) = false ->
      nth i (contribution inv) fzero = fzero.
Proof.
  intros Hvalid. eexists. split; [apply simulate_growth_columns|].
  cbn [index contribution]. intros i Hi Hex. cbn [map] in *.
  apply contribution_column_examined; [exact Hvalid| |exact Hex].
  rewrite length_map. exact Hi.
Qed.

End ContributionProperties.

(** X4, on three trading days: the two January rows lie in the month of
    the first date. *)
Lemma simulate_growth_contribution_months_three_days :
  Forall valid_date (map row_date three_days) /\
  exists inv,
    simulate_growth (Some three_days) (of_Z 10000) (of_Z 500)
    = Returned (Some inv) /\
    forall i, (0 < i < 3)%nat ->
      examined_month (mkTimestamp 2020 1 30)
                     (nth i (index inv) (mkTimestamp 2020 1 30)) = false ->
      nth i (contribution inv) fzero = fzero.
Proof.
  assert (Hvalid : Forall valid_date (map row_date three_days))
    by (repeat constructor; cbn; lia).
  split; [exact Hvalid|]. unfold three_days in *.
  apply simulate_growth_contribution_months. exact Hvalid.
Defined.

(** X2, on the thirteen monthly dates: five more passes than [loop_fuel]
    allows change nothing. *)
Lemma contribution_loop_fuel_monthly13 :
  valid_month (mkTimestamp 2020 1 15) /\
  valid_month (mkTimestamp 2021 1 15) /\
  contribution_loop
    (loop_fuel (mkTimestamp 2020 1 15) (mkTimestamp 2021 1 15) + 5)
    monthly13 (mkTimestamp 2020 1 15) (mkTimestamp 2021 1 15) 500%Q
    (mkTimestamp 2020 1 15) (list_set 0 10000%Q (map (fun _ => 0%Q) monthly13))
  = contribution_loop
      (loop_fuel (mkTimestamp 2020 1 15) (mkTimestamp 2021 1 15))
      monthly13 (mkTimestamp 2020 1 15) (mkTimestamp 2021 1 15) 500%Q
      (mkTimestamp 2020 1 15) (list_set 0 10000%Q (map (fun _ => 0%Q) monthly13)).
Proof.
  assert (H1 : valid_month (mkTimestamp 2020 1 15)) by (unfold valid_month; cbn; lia).
  assert (H2 : valid_month (mkTimestamp 2021 1 15)) by (unfold valid_month; cbn; lia).
  split; [exact H1|]. split; [exact H2|].
  apply (@contribution_loop_fuel Q monthly13 (mkTimestamp 2020 1 15)
           (mkTimestamp 2021 1 15) 500%Q
           (list_set 0 10000%Q (map (fun _ => 0%Q) monthly13)) 5%nat H1 H2).
Defined.

(** ** Trajectories on exact rationals *)

Ltac q_ops :=
  change (@fadd Q NumQ) with Qplus in *;
  change (@fmul Q NumQ) with Qmult in *;
  change (@fsub Q NumQ) with Qminus in *;
  change (@fdiv Q NumQ) with Qdiv in *;
  change (@fone Q NumQ) with 1%Q in *;
  change (@fzero Q NumQ) with 0%Q in *.

Section RationalTrajectories.
Open Scope Q_scope.

(** Without missing values [cumsum] and [cumprod] are NumPy's. *)
Lemma pandas_cum_Q (op : Q -> Q -> Q) (neutral : Q) (xs : list Q) :
  pandas_cum op neutral xs = accumulate op xs.
Proof.
  unfold pandas_cum. cbn [fisnan NumQ]. cbv zeta.
  rewrite map_id.
  rewrite (map_ext (fun p : Q * Q => snd p) snd) by reflexivity.
  apply map_snd_combine. rewrite accumulate_length. lia.
Qed.

Lemma accumulate_from_nth_S (op : Q -> Q -> Q) (xs : list Q) :
  forall (acc : Q) (t : nat) (d : Q),
    (S t < List.length xs)%nat ->
    nth (S t) (accumulate_from op acc xs) d =
    op (nth t (accumulate_from op acc xs) d) (nth (S t) xs d).
Proof.
  induction xs as [|x xs IH]; intros acc t d Hlt; cbn in Hlt; [lia|].
  cbn [accumulate_from]. destruct t as [|t].
  - destruct xs as [|y ys]; cbn in Hlt; [lia|]. reflexivity.
  - change (nth (S (S t)) (op acc x :: accumulate_from op (op acc x) xs) d)
      with (nth (S t) (accumulate_from op (op acc x) xs) d).
    rewrite IH by lia. reflexivity.
Qed.

(** Entry [t+1] of an accumulation is entry [t] combined with the next
    value. *)
Lemma accumulate_nth_S (op : Q -> Q -> Q) (xs : list Q) (t : nat) (d : Q) :
  (S t < List.length xs)%nat ->
  nth (S t) (accumulate op xs) d =
  op (nth t (accumulate op xs) d) (nth (S t) xs d).
Proof.
  destruct xs as [|x xs]; intros Hlt; cbn in Hlt; [lia|].
  cbn [accumulate]. destruct t as [|t].
  - destruct xs as [|y ys]; cbn in Hlt; [lia|]. reflexivity.
  - change (nth (S (S t)) (x :: accumulate_from op x xs) d)
      with (nth (S t) (accumulate_from op x xs) d).
    rewrite accumulate_from_nth_S by lia. reflexivity.
Qed.

Lemma accumulate_nth_0 (op : Q -> Q -> Q) (xs : list Q) (d : Q) :
  nth 0 (accumulate op xs) d = nth 0 xs d.
Proof. destruct xs; reflexivity. Qed.

(** The columns of a trajectory and the recurrences they obey. *)
Lemma trajectory_columns (row : PortfolioRow) (rows : list PortfolioRow)
      (init mc : Q) :
  exists inv,
    simulate_growth (Some (row :: rows)) init mc = Returned (Some inv) /\
    ret inv = map portfolio_return (row :: rows) /\
    nth 0 (contribution inv) 0 = init /\
    (forall i, (0 < i < S (List.length rows))%nat ->
               nth i (contribution inv) 0 = 0 \/ nth i (contribution inv) 0 = mc) /\
    nth 0 (portfolio_value inv) 0 = init /\
    nth 0 (cumulative_contribution inv) 0 = init /\
    forall i, (S i < S (List.length rows))%nat ->
      nth (S i) (portfolio_value inv) 0 =
      nth i (portfolio_value inv) 0 * (1 + nth (S i) (ret inv) 0)
      + nth (S i) (contribution inv) 0 /\
      nth (S i) (cumulative_contribution inv) 0 =
      nth i (cumulative_contribution inv) 0 + nth (S i) (contribution inv) 0.
Proof.
  eexists. split; [apply simulate_growth_columns|].
  cbn [ret contribution portfolio_value cumulative_contribution].
  set (idx := map row_date (row :: rows)).
  set (rets := map portfolio_return (row :: rows)).
  set (n := List.length (row :: rows)).
  destruct (contribution_column_shape (row_date row) (map row_date rows) init mc)
    as (Hlen & H0 & Hrest).
  rewrite length_map in Hlen, Hrest.
  change (row_date row :: map row_date rows) with idx in Hlen, H0, Hrest.
  destruct (value_run_invariant rets (contribution_column idx init mc)
              init (n := n) (k := n) (le_n n))
    as (Hpvlen & _ & Hpos & Hrec).
  assert (Hn : (0 < n)%nat) by (subst n; cbn; lia).
  unfold cumsum. rewrite pandas_cum_Q. q_ops.
  split; [reflexivity|]. split; [exact H0|]. split; [exact Hrest|].
  split; [apply Hpos, Hn|]. split; [rewrite accumulate_nth_0; exact H0|].
  intros i Hi. split.
  - assert (Hg := Hrec (S i)). unfold grown in Hg. q_ops.
    replace (S i - 1)%nat with i in Hg by lia. apply Hg. subst n. cbn. lia.
  - apply accumulate_nth_S. rewrite Hlen. exact Hi.
Qed.

End RationalTrajectories.

Section RationalTrajectoryProperties.
Open Scope Q_scope.

(** With non-negative amounts and returns the cumulative contribution
    lies between the initial investment and the portfolio value. *)
Lemma contributions_between (row : PortfolioRow) (rows : list PortfolioRow)
      (init mc : Q) (inv : Investments) :
  simulate_growth (Some (row :: rows)) init mc = Returned (Some inv) ->
  0 <= init -> 0 <= mc ->
  Forall (fun r => 0 <= portfolio_return r) rows ->
  forall i, (i < S (List.length rows))%nat ->
    init <= nth i (cumulative_contribution inv) 0 /\
    nth i (cumulative_contribution inv) 0 <= nth i (portfolio_value inv) 0.
Proof.
  intros Hrun0 Hinit Hmc Hrets.
  destruct (trajectory_columns row rows init mc)
    as (inv' & Hrun & Hret & Hc0 & Hc & Hpv0 & Hcc0 & Hrec).
  assert (Heq : inv' = inv).
  { pose proof (eq_trans (eq_sym Hrun) Hrun0) as Hboth.
    injection Hboth as Hsame. exact Hsame. }
  subst inv'.
  induction i as [|i IH]; intros Hi.
  - rewrite Hpv0, Hcc0. split; apply Qle_refl.
  - destruct (Hrec i Hi) as [Hpv Hcc]. destruct IH as [IH0 IHle]; [lia|].
    assert (Hci : 0 <= nth (S i) (contribution inv) 0).
    { destruct (Hc (S i) (conj (Nat.lt_0_succ i) Hi)) as [-> | ->];
        [apply Qle_refl|exact Hmc]. }
    assert (Hr : 0 <= nth (S i) (ret inv) 0).
    { rewrite Hret. cbn [map nth].
      apply Forall_map in Hrets.
      apply (proj1 (Forall_nth _ _) Hrets). rewrite length_map. lia. }
    assert (Hprod : 0 <= nth i (portfolio_value inv) 0 * nth (S i) (ret inv) 0).
    { apply Qmult_le_0_compat; [|exact Hr].
      exact (Qle_trans _ _ _ Hinit (Qle_trans _ _ _ IH0 IHle)). }
    rewrite Hpv, Hcc, Qmult_plus_distr_r, Qmult_1_r.
    revert IH0 IHle Hci Hprod.
    generalize (nth i (portfolio_value inv) 0 * nth (S i) (ret inv) 0)
               (nth i (portfolio_value inv) 0)
               (nth i (cumulative_contribution inv) 0)
               (nth (S i) (contribution inv) 0).
    intros p v c k IH0 IHle Hk Hp. clear - IH0 IHle Hk Hp. split; lra.
Qed.

(** X5.  With a non-negative initial investment, a non-negative monthly
    contribution and no negative daily return after the first row, the
    portfolio value is at every row at least the cumulative contribution,
    which is itself never negative. *)
Theorem portfolio_value_covers_contributions
        (row : PortfolioRow) (rows : list PortfolioRow) (init mc : Q) :
  0 <= init -> 0 <= mc ->
  Forall (fun r => 0 <= portfolio_return r) rows ->
  exists inv,
    simulate_growth (Some (row :: rows)) init mc = Returned (Some inv) /\
    forall i, (i < S (List.length rows))%nat ->
      0 <= nth i (cumulative_contribution inv) 0 /\
      nth i (cumulative_contribution inv) 0 <= nth i (portfolio_value inv) 0.
Proof.
  intros Hinit Hmc Hrets.
  destruct (trajectory_columns row rows init mc) as (inv & Hrun & _).
  exists inv. split; [exact Hrun|]. intros i Hi.
  destruct (contributions_between Hrun Hinit Hmc Hrets Hi) as [Hlo Hle].
  split; [exact (Qle_trans _ _ _ Hinit Hlo)|exact Hle].
Qed.

(** X6.  When every daily return after the first row is 0, the portfolio
    value equals the cumulative contribution at every row: the run shows
    neither profit nor loss. *)
Theorem zero_returns_value_is_contributions
        (row : PortfolioRow) (rows : list PortfolioRow) (init mc : Q) :
  Forall (fun r => portfolio_return r == 0) rows ->
  exists inv,
    simulate_growth (Some (row :: rows)) init mc = Returned (Some inv) /\
    forall i, (i < S (List.length rows))%nat ->
      nth i (portfolio_value inv) 0 == nth i (cumulative_contribution inv) 0.
Proof.
  intros Hrets.
  destruct (trajectory_columns row rows init mc)
    as (inv & Hrun & Hret & Hc0 & Hc & Hpv0 & Hcc0 & Hrec).
  exists inv. split; [exact Hrun|].
  induction i as [|i IH]; intros Hi.
  - rewrite Hpv0, Hcc0. reflexivity.
  - destruct (Hrec i Hi) as [Hpv Hcc].
    assert (Hr : nth (S i) (ret inv) 0 == 0).
    { rewrite Hret. cbn [map nth].
      pose proof (proj2 (Forall_map portfolio_return (fun x => x == 0) rows)
                        Hrets) as Hm.
      apply (proj1 (Forall_nth _ _) Hm). rewrite length_map. lia. }
    rewrite Hpv, Hcc, Hr, IH by lia. ring.
Qed.

(** X7.  With a monthly contribution of 0 the cumulative contribution
    stays at the initial investment on every row. *)
Theorem zero_contribution_stays_flat
        (row : PortfolioRow) (rows : list PortfolioRow) (init mc : Q) :
  mc == 0 ->
  exists inv,
    simulate_growth (Some (row :: rows)) init mc = Returned (Some inv) /\
    forall i, (i < S (List.length rows))%nat ->
      nth i (cumulative_contribution inv) 0 == init.
Proof.
  intros Hmc.
  destruct (trajectory_columns row rows init mc)
    as (inv & Hrun & Hret & Hc0 & Hc & Hpv0 & Hcc0 & Hrec).
  exists inv. split; [exact Hrun|].
  induction i as [|i IH]; intros Hi.
  - rewrite Hcc0. reflexivity.
  - destruct (Hrec i Hi) as [_ Hcc]. rewrite Hcc, IH by lia.
    destruct (Hc (S i) (conj (Nat.lt_0_succ i) Hi)) as [-> | ->];
      [|rewrite Hmc]; ring.
Qed.

End RationalTrajectoryProperties.

(** X5, on three days of returns 1 %, 2 % and 0. *)
Lemma portfolio_value_covers_contributions_rising :
  (0 <= 10000 /\ 0 <= 500)%Q /\
  Forall (fun r => 0 <= portfolio_return r)%Q (tl rising_days) /\
  exists inv,
    simulate_growth (Some rising_days) 10000%Q 500%Q = Returned (Some inv) /\
    forall i, (i < 3)%nat ->
      (0 <= nth i (cumulative_contribution inv) 0 /\
       nth i (cumulative_contribution inv) 0 <= nth i (portfolio_value inv) 0)%Q.
Proof.
  assert (H1 : (0 <= 10000)%Q) by (vm_compute; discriminate).
  assert (H2 : (0 <= 500)%Q) by (vm_compute; discriminate).
  assert (H3 : Forall (fun r => 0 <= portfolio_return r)%Q (tl rising_days))
    by (repeat constructor; vm_compute; discriminate).
  split; [split; assumption|]. split; [exact H3|].
  unfold rising_days in *.
  apply (portfolio_value_covers_contributions _ H1 H2 H3).
Defined.

(** X6, on three days without a price change. *)
Lemma zero_returns_value_is_contributions_still :
  Forall (fun r => portfolio_return r == 0)%Q (tl still_days) /\
  exists inv,
    simulate_growth (Some still_days) 10000%Q 500%Q = Returned (Some inv) /\
    forall i, (i < 3)%nat ->
      (nth i (portfolio_value inv) 0 == nth i (cumulative_contribution inv) 0)%Q.
Proof.
  assert (H : Forall (fun r => portfolio_return r == 0)%Q (tl still_days))
    by (repeat constructor).
  split; [exact H|]. unfold still_days in *.
  apply (zero_returns_value_is_contributions _ 10000%Q 500%Q H).
Defined.

(** X7, on the three trading days with nothing contributed monthly. *)
Lemma zero_contribution_stays_flat_three_days :
  (0 == 0)%Q /\
  exists inv,
    simulate_growth (Some three_days) 10000%Q 0%Q = Returned (Some inv) /\
    forall i, (i < 3)%nat ->
      (nth i (cumulative_contribution inv) 0 == 10000)%Q.
Proof.
  assert (H0 : (0 == 0)%Q) by reflexivity.
  split; [exact H0|]. unfold three_days.
  match goal with |- context [Some (?r :: ?rs)] =>
    exact (zero_contribution_stays_flat r rs 10000%Q H0) end.
Defined.

Section LumpSum.
Open Scope Q_scope.

(** X8.  A lump sum follows the portfolio's cumulative return: simulated
    on a frame that [get_portfolio_data] built, with a monthly
    contribution of 0, the portfolio value of every row stands to the
    initial investment as the cumulative return of that row stands to
    the cumulative return of the first row. *)
Theorem lump_sum_follows_cumulative_return
        (data_dir : @DataDir Q) (portfolio : Portfolio)
        (start_date end_date : option Timestamp)
        (row : PortfolioRow) (rest : list PortfolioRow) (init mc : Q) :
  portfolio_frame data_dir portfolio start_date end_date = Some (row :: rest) ->
  mc == 0 ->
  exists inv,
    simulate_growth (Some (row :: rest)) init mc = Returned (Some inv) /\
    forall i, (i < S (List.length rest))%nat ->
      nth i (portfolio_value inv) 0 * cumulative_return row ==
      init * nth i (map cumulative_return (row :: rest)) 0.
Proof.
  intros Hframe Hmc.
  destruct (trajectory_columns row rest init mc)
    as (inv & Hrun & Hret & Hc0 & Hc & Hpv0 & Hcc0 & Hrec).
  exists inv. split; [exact Hrun|].
  destruct (portfolio_frame_rows _ _ _ _ Hframe) as (rows & _ & Heq).
  assert (HR : map portfolio_return (row :: rest) = returns_of rows)
    by (rewrite Heq; apply frame_returns).
  assert (HC : map cumulative_return (row :: rest) = cumulative_of rows)
    by (rewrite Heq; apply frame_cumulative).
  unfold cumulative_of, cumprod in HC. rewrite pandas_cum_Q, <- HR in HC.
  q_ops. change (@of_Z Q NumQ 100%Z) with (inject_Z 100) in HC.
  set (R := map portfolio_return (row :: rest)) in *.
  set (P := accumulate Qmult (map (Qplus 1) R)) in *.
  assert (HlenR : List.length R = S (List.length rest))
    by (subst R; rewrite length_map; reflexivity).
  assert (HlenP : List.length P = S (List.length rest))
    by (subst P; rewrite accumulate_length, length_map; exact HlenR).
  assert (Hcum : forall i, (i < S (List.length rest))%nat ->
            nth i (map cumulative_return (row :: rest)) 0
            = nth i P 0 * inject_Z 100).
  { intros i Hi. rewrite HC.
    apply (@nth_map_lt Q Q (fun c => c * inject_Z 100) P i 0 0). lia. }
  assert (Hmain : forall i, (i < S (List.length rest))%nat ->
            nth i (portfolio_value inv) 0 * nth 0 P 0 == init * nth i P 0).
  { induction i as [|i IH]; intros Hi.
    - rewrite Hpv0. reflexivity.
    - destruct (Hrec i Hi) as [Hpv _]. rewrite Hpv, Hret.
      subst P. rewrite accumulate_nth_S by (rewrite length_map; lia).
      rewrite (@nth_map_lt Q Q (Qplus 1) R (S i) 0 0) by lia.
      assert (Hci : nth (S i) (contribution inv) 0 == 0).
      { destruct (Hc (S i) (conj (Nat.lt_0_succ i) Hi)) as [-> | ->];
          [reflexivity|exact Hmc]. }
      rewrite Hci.
      transitivity (nth i (portfolio_value inv) 0
                    * nth 0 (accumulate Qmult (map (Qplus 1) R)) 0
                    * (1 + nth (S i) R 0)); [ring|].
      rewrite IH by lia. ring. }
  intros i Hi.
  change (cumulative_return row)
    with (nth 0 (map cumulative_return (row :: rest)) 0).
  rewrite !Hcum by lia.
  transitivity (nth i (portfolio_value inv) 0 * nth 0 P 0 * inject_Z 100);
    [ring|].
  rewrite Hmain by exact Hi. ring.
Qed.

End LumpSum.

(** X8, on the two-ticker scenario with 10000 invested. *)
Lemma lump_sum_follows_cumulative_return_scenario :
  exists row rest,
    portfolio_frame scenario_dir two_fund None None = Some (row :: rest) /\
    (0 == 0)%Q /\
    exists inv,
      simulate_growth (Some (row :: rest)) 10000%Q 0%Q = Returned (Some inv) /\
      forall i, (i < S (List.length rest))%nat ->
        (nth i (portfolio_value inv) 0 * cumulative_return row ==
         10000 * nth i (map cumulative_return (row :: rest)) 0)%Q.
Proof.
  eexists. eexists. split; [reflexivity|]. split; [reflexivity|].
  apply (@lump_sum_follows_cumulative_return scenario_dir two_fund None None
           _ _ 10000%Q 0%Q); reflexivity.
Defined.

(** ** [load_ticker_data] and [get_ticker_data_for_period] *)

Section LoadFacts.
Context {F : Type} `{NF : Num F}.

Lemma insert_row_perm (r : Timestamp * F) (rows : list (Timestamp * F)) :
  Permutation (insert_row r rows) (r :: rows).
Proof.
  induction rows as [|x t IH]; cbn [insert_row]; [reflexivity|].
  destruct (ts_ltb (fst x) (fst r)); [|reflexivity].
  rewrite IH. apply perm_swap.
Qed.

Lemma sort_index_perm (rows : list (Timestamp * F)) :
  Permutation (sort_index rows) rows.
Proof.
  induction rows as [|r t IH]; cbn; [reflexivity|].
  rewrite insert_row_perm. constructor. exact IH.
Qed.

Lemma insert_row_ascending (r : Timestamp * F) (rows : list (Timestamp * F)) :
  ascending (map fst rows) -> ascending (map fst (insert_row r rows)).
Proof.
  unfold ascending. induction rows as [|x t IH]; intros Hs; cbn [insert_row map].
  - repeat constructor.
  - cbn [map] in Hs. apply StronglySorted_inv in Hs as [Ht Hx].
    destruct (ts_ltb (fst x) (fst r)) eqn:E; cbn [map].
    + constructor; [apply IH, Ht|].
      apply (Permutation_Forall
               (Permutation_sym (Permutation_map fst (insert_row_perm r t)))).
      cbn [map]. constructor; [apply ts_ltb_leb, E|exact Hx].
    + apply ts_ltb_false_leb in E. constructor.
      * constructor; assumption.
      * constructor; [exact E|]. revert Hx. apply Forall_impl.
        intros d Hd. exact (ts_leb_trans _ _ _ E Hd).
Qed.

Lemma sort_index_ascending (rows : list (Timestamp * F)) :
  ascending (map fst (sort_index rows)).
Proof.
  induction rows as [|r t IH]; cbn; [constructor|].
  apply insert_row_ascending, IH.
Qed.

Lemma pct_change_from_length (prev : F) (closes : list F) :
  List.length (pct_change_from prev closes) = List.length closes.
Proof.
  revert prev; induction closes as [|c t IH]; intros prev; cbn;
    [|rewrite IH]; reflexivity.
Qed.

Lemma pct_change_length (closes : list F) :
  List.length (pct_change closes) = List.length closes.
Proof.
  destruct closes as [|c t]; cbn; [|rewrite pct_change_from_length]; reflexivity.
Qed.



(** What [load_ticker_data] returns for a file that can be read. *)
Lemma load_ticker_data_some (data_dir : @DataDir F) (ticker : string)
      (frame : @TickerData F) :
  load_ticker_data data_dir ticker = Some frame ->
  exists file rows,
    dict_get ticker file_mapping = Some file /\
    data_dir file = Some rows /\
    map fst frame = map fst (sort_index rows) /\
    map snd frame = pct_change (map snd (sort_index rows)).
Proof.
  unfold load_ticker_data.
  destruct (dict_get ticker file_mapping) as [file|] eqn:Efile; [|discriminate].
  destruct (data_dir file) as [rows|] eqn:Edir; [|discriminate].
  intros [= <-]. exists file, rows. split; [reflexivity|]. split; [exact Edir|].
  cbv zeta. split.
  - apply map_fst_combine. rewrite pct_change_length, !length_map. lia.
  - apply map_snd_combine. rewrite pct_change_length, !length_map. lia.
Qed.

Lemma combine_fst_snd {A B : Type} (l : list (A * B)) :
  combine (map fst l) (map snd l) = l.
Proof.
  induction l as [|[a b] l IH]; cbn; [|rewrite IH]; reflexivity.
Qed.


End LoadFacts.

Section PeriodFacts.
Context {F : Type} `{NF : Num F}.

Lemma filter_ascending {A : Type} (key : A -> Timestamp) (f : A -> bool)
      (l : list A) :
  ascending (map key l) -> ascending (map key (filter f l)).
Proof.
  unfold ascending. induction l as [|x t IH]; intros Hs; cbn [filter map];
    [constructor|].
  cbn [map] in Hs. apply StronglySorted_inv in Hs as [Ht Hx].
  destruct (f x); cbn [map]; [|apply IH, Ht].
  constructor; [apply IH, Ht|].
  rewrite Forall_forall in *. intros d Hd. apply Hx.
  apply in_map_iff in Hd as (y & <- & Hy). apply filter_In in Hy as [Hy _].
  apply in_map. exact Hy.
Qed.

Lemma filter_nodup_keys {A : Type} (key : A -> Timestamp) (f : A -> bool)
      (l : list A) :
  NoDup (map key l) -> NoDup (map key (filter f l)).
Proof.
  induction l as [|x t IH]; intros Hn; cbn [filter map]; [constructor|].
  cbn [map] in Hn. apply NoDup_cons_iff in Hn as [Hx Ht].
  destruct (f x); cbn [map]; [|apply IH, Ht].
  constructor; [|apply IH, Ht].
  intros Hin. apply Hx. apply in_map_iff in Hin as (y & <- & Hy).
  apply filter_In in Hy as [Hy _]. apply in_map. exact Hy.
Qed.

(** The rows of a period are the loaded rows between its bounds. *)
Lemma get_ticker_data_for_period_some (data_dir : @DataDir F) (ticker : string)
      (start_date end_date : option Timestamp) (data : @TickerData F) :
  get_ticker_data_for_period data_dir ticker start_date end_date = Some data ->
  exists df,
    load_ticker_data data_dir ticker = Some df /\
    (forall r, In r data <-> In r df /\ in_period start_date end_date (fst r)) /\
    (ascending (map fst df) -> ascending (map fst data)) /\
    (NoDup (map fst df) -> NoDup (map fst data)).
Proof.
  unfold get_ticker_data_for_period.
  destruct (load_ticker_data data_dir ticker) as [df|]; [|discriminate].
  intros [= <-]. exists df. split; [reflexivity|]. unfold in_period.
  destruct start_date as [s|], end_date as [e|]; cbv zeta.
  - split; [|split].
    + intros r. rewrite !filter_In. tauto.
    + intros Hs. apply filter_ascending, filter_ascending, Hs.
    + intros Hn. apply filter_nodup_keys, filter_nodup_keys, Hn.
  - split; [|split].
    + intros r. rewrite !filter_In. tauto.
    + intros Hs. apply filter_ascending, Hs.
    + intros Hn. apply filter_nodup_keys, Hn.
  - split; [|split].
    + intros r. rewrite !filter_In. tauto.
    + intros Hs. apply filter_ascending, Hs.
    + intros Hn. apply filter_nodup_keys, Hn.
  - split; [|split]; tauto.
Qed.

Lemma load_ticker_data_ascending (data_dir : @DataDir F) (ticker : string)
      (df : @TickerData F) :
  load_ticker_data data_dir ticker = Some df -> ascending (map fst df).
Proof.
  intros Hload.
  destruct (load_ticker_data_some _ _ Hload) as (file & rows & _ & _ & -> & _).
  apply sort_index_ascending.
Qed.

(** X10.  For a ticker whose file can be read,
    [get_ticker_data_for_period] returns exactly the loaded rows whose
    date lies between the bounds that are given, still in ascending order;
    the daily returns are those computed on the whole file. *)
Theorem get_ticker_data_for_period_rows (data_dir : @DataDir F)
        (ticker : string) (start_date end_date : option Timestamp)
        (data : @TickerData F) :
  get_ticker_data_for_period data_dir ticker start_date end_date = Some data ->
  exists df,
    load_ticker_data data_dir ticker = Some df /\
    (forall r, In r data <-> In r df /\ in_period start_date end_date (fst r)) /\
    ascending (map fst data).
Proof.
  intros Hget.
  destruct (get_ticker_data_for_period_some _ _ _ _ Hget)
    as (df & Hload & Hrows & Hasc & _).
  exists df. split; [exact Hload|]. split; [exact Hrows|].
  apply Hasc. exact (load_ticker_data_ascending _ _ Hload).
Qed.

End PeriodFacts.

(** ** The index of the frame of a portfolio *)

Section FrameIndexFacts.
Context {F : Type} `{NF : Num F}.

Lemma available_In (data_dir : @DataDir F)
      (start_date end_date : option Timestamp) (portfolio : Portfolio)
      (item : string * Q) (data : @TickerData F) :
  In (item, data) (available data_dir start_date end_date portfolio) ->
  In item portfolio /\
  get_ticker_data_for_period data_dir (fst item) start_date end_date = Some data.
Proof.
  unfold available. intros Hin. apply in_flat_map in Hin as (it & Hit & Hin).
  destruct (get_ticker_data_for_period data_dir (fst it) start_date end_date)
    as [d|] eqn:E; [|destruct Hin].
  destruct Hin as [[= <- <-]|[]]. split; assumption.
Qed.

Lemma ascending_app (l1 l2 : list Timestamp) :
  ascending l1 -> ascending l2 ->
  (forall a b, In a l1 -> In b l2 -> date_le a b) ->
  ascending (l1 ++ l2).
Proof.
  unfold ascending. induction l1 as [|a l1 IH]; intros H1 H2 Hle; [exact H2|].
  cbn [app]. apply StronglySorted_inv in H1 as [H1 Ha].
  constructor.
  - apply IH; [exact H1|exact H2|]. intros x y Hx Hy. apply Hle; [right|]; assumption.
  - apply Forall_app. split; [exact Ha|].
    apply Forall_forall. intros y Hy. apply Hle; [left; reflexivity|exact Hy].
Qed.

Lemma ascending_constant (d : Timestamp) (l : list Timestamp) :
  (forall x, In x l -> x = d) -> ascending l.
Proof.
  unfold ascending. induction l as [|a l IH]; intros Hall; constructor.
  - apply IH. intros x Hx. apply Hall. right. exact Hx.
  - apply Forall_forall. intros x Hx.
    rewrite (Hall a (or_introl eq_refl)), (Hall x (or_intror Hx)).
    apply ts_leb_refl.
Qed.

(** The rows that a left join makes of one row all carry that row's date. *)
Lemma left_join_row_dates (row : Timestamp * list (@Cell F))
      (col : @TickerData F) (x : Timestamp) :
  In x (map fst (left_join [row] col)) -> x = fst row.
Proof.
  intros Hin. apply (left_join_dates [row] col x) in Hin.
  destruct Hin as [<-|[]]. reflexivity.
Qed.

Lemma left_join_cons (row : Timestamp * list (@Cell F)) (res : @Joined F)
      (col : @TickerData F) :
  left_join (row :: res) col = left_join [row] col ++ left_join res col.
Proof.
  unfold left_join. cbn [flat_map]. rewrite app_nil_r. reflexivity.
Qed.

(** A left join keeps the dates in ascending order. *)
Lemma left_join_ascending (res : @Joined F) (col : @TickerData F) :
  ascending (map fst res) -> ascending (map fst (left_join res col)).
Proof.
  induction res as [|row res IH]; intros Hs; [constructor|].
  rewrite left_join_cons, map_app. cbn [map] in Hs.
  apply StronglySorted_inv in Hs as [Hres Hrow].
  apply ascending_app.
  - apply (@ascending_constant (fst row)). apply left_join_row_dates.
  - apply IH, Hres.
  - intros a b Ha Hb. apply left_join_row_dates in Ha. subst a.
    apply left_join_dates in Hb. rewrite Forall_forall in Hrow.
    apply Hrow, Hb.
Qed.

Lemma filter_key_absent (col : @TickerData F) (d : Timestamp) :
  ~ In d (map fst col) -> filter (fun r => ts_eqb (fst r) d) col = [].
Proof.
  induction col as [|r col IH]; intros Hn; [reflexivity|].
  cbn [filter]. destruct (ts_eqb (fst r) d) eqn:E.
  - exfalso. apply Hn. left. apply ts_eqb_eq, E.
  - apply IH. intros Hin. apply Hn. right. exact Hin.
Qed.

(** On a column without a repeated date a left join makes one row of
    every row. *)
Lemma left_join_unique (res : @Joined F) (col : @TickerData F) :
  NoDup (map fst col) -> map fst (left_join res col) = map fst res.
Proof.
  intros Hn. induction res as [|row res IH]; [reflexivity|].
  rewrite left_join_cons, map_app, IH. cbn [map]. f_equal.
  unfold left_join. cbn [flat_map]. rewrite app_nil_r.
  assert (Hone : forall c : @TickerData F, NoDup (map fst c) ->
            (List.length (filter (fun r => ts_eqb (fst r) (fst row)) c) <= 1)%nat).
  { induction c as [|r c IHc]; intros Hc; cbn [filter]; [cbn; lia|].
    cbn [map] in Hc. apply NoDup_cons_iff in Hc as [Hr Hc].
    destruct (ts_eqb (fst r) (fst row)) eqn:E; [|apply IHc, Hc].
    apply ts_eqb_eq in E. rewrite <- E, (@filter_key_absent c (fst r) Hr).
    cbn. lia. }
  specialize (Hone col Hn). unalias.
  destruct (filter (fun r => ts_eqb (fst r) (fst row)) col) as [|m [|m' ms]];
    cbn in Hone; try lia; reflexivity.
Qed.

Lemma fold_join_available_index avs :
  forall (res res' : @Joined F),
    fold_left join_available avs (Some res) = Some res' ->
    (ascending (map fst res) -> ascending (map fst res')) /\
    (Forall (fun av => NoDup (map fst (snd av))) avs ->
     map fst res' = map fst res).
Proof.
  induction avs as [|[item data] avs IH]; intros res res' Hfold.
  - cbn [fold_left] in Hfold. injection Hfold as <-. tauto.
  - cbn [fold_left] in Hfold. unfold join_available at 2 in Hfold.
    cbn [fst snd] in Hfold. destruct (IH _ _ Hfold) as [Hasc Hidx]. split.
    + intros Hs. apply Hasc, left_join_ascending, Hs.
    + intros Hn. apply Forall_cons_iff in Hn as [Hd Hn]. cbn [snd] in Hd.
      rewrite (Hidx Hn). apply left_join_unique.
      rewrite weighted_column_dates. exact Hd.
Qed.

(** The first available ticker of a frame that is returned, and the
    frame's dates as the join made them. *)
Lemma portfolio_frame_first (data_dir : @DataDir F) (portfolio : Portfolio)
      (start_date end_date : option Timestamp) (frame : @PortfolioData F) :
  portfolio_frame data_dir portfolio start_date end_date = Some frame ->
  exists item0 data0 others rows,
    available data_dir start_date end_date portfolio
    = (item0, data0) :: others /\
    fold_left join_available others
              (Some (map (fun r => (fst r, [snd r]))
                         (weighted_column (snd item0) data0)))
    = Some rows /\
    map row_date frame = map fst rows.
Proof.
  intros Hframe.
  destruct (portfolio_frame_rows _ _ _ _ Hframe) as (rows & Hfold & ->).
  rewrite fold_join_available in Hfold.
  destruct (available data_dir start_date end_date portfolio)
    as [|[item0 data0] avs] eqn:Eav; [discriminate|].
  cbn [fold_left] in Hfold. unfold join_available at 2 in Hfold.
  cbn [fst snd] in Hfold.
  exists item0, data0, avs, rows. split; [reflexivity|].
  split; [exact Hfold|apply frame_dates].
Qed.

Lemma first_column_dates (w : Q) (data : @TickerData F) :
  map fst (map (fun r : Timestamp * @Cell F => (fst r, [snd r]))
               (weighted_column w data))
  = map fst data.
Proof.
  rewrite map_map. cbn [fst]. apply weighted_column_dates.
Qed.

(** X11.  Every frame returned for a portfolio has its dates in ascending
    order, and every one of them lies within the period asked for. *)
Theorem portfolio_frame_dates_ascending (data_dir : @DataDir F)
        (portfolio : Portfolio) (start_date end_date : option Timestamp)
        (frame : @PortfolioData F) :
  portfolio_frame data_dir portfolio start_date end_date = Some frame ->
  ascending (map row_date frame) /\
  Forall (in_period start_date end_date) (map row_date frame).
Proof.
  intros Hframe.
  destruct (portfolio_frame_first _ _ _ _ Hframe)
    as (item0 & data0 & others & rows & Hav & Hfold & ->).
  assert (Hin : In (item0, data0)
                   (available data_dir start_date end_date portfolio))
    by (rewrite Hav; left; reflexivity).
  apply available_In in Hin as [_ Hget].
  destruct (get_ticker_data_for_period_some _ _ _ _ Hget)
    as (df & Hload & Hrows & Hasc & _).
  destruct (@fold_join_available_index others _ _ Hfold) as [Hkeep _].
  destruct (@fold_join_available_rows F NF others [] _ _ Hfold) as [Hdates _].
  split.
  - apply Hkeep. rewrite first_column_dates.
    apply Hasc. exact (load_ticker_data_ascending _ _ Hload).
  - apply Forall_forall. intros d Hd. apply Hdates in Hd.
    rewrite first_column_dates in Hd.
    apply in_map_iff in Hd as (r & <- & Hr). apply Hrows in Hr. apply Hr.
Qed.

(** X12.  When no CSV file lists a date twice, the frame returned for a
    portfolio has exactly the dates of the first available ticker within
    the period, one row for each: the join neither drops nor repeats a
    row of that ticker. *)
Theorem portfolio_frame_index_of_first_ticker (data_dir : @DataDir F)
        (portfolio : Portfolio) (start_date end_date : option Timestamp)
        (frame : @PortfolioData F) :
  (forall file rows, data_dir file = Some rows -> NoDup (map fst rows)) ->
  portfolio_frame data_dir portfolio start_date end_date = Some frame ->
  exists item0 data0 others,
    available data_dir start_date end_date portfolio
    = (item0, data0) :: others /\
    map row_date frame = map fst data0 /\
    NoDup (map row_date frame).
Proof.
  intros Hfiles Hframe.
  destruct (portfolio_frame_first _ _ _ _ Hframe)
    as (item0 & data0 & others & rows & Hav & Hfold & ->).
  assert (Hnodup : forall av,
             In av (available data_dir start_date end_date portfolio) ->
             NoDup (map fst (snd av))).
  { intros [item data] Hin. apply available_In in Hin as [_ Hget].
    destruct (get_ticker_data_for_period_some _ _ _ _ Hget)
      as (df & Hload & _ & _ & Hkeep).
    apply Hkeep.
    destruct (load_ticker_data_some _ _ Hload)
      as (file & rs & _ & Hdir & -> & _).
    apply (Permutation_NoDup
             (Permutation_sym (Permutation_map fst (sort_index_perm rs)))).
    exact (Hfiles _ _ Hdir). }
  destruct (@fold_join_available_index others _ _ Hfold) as [_ Hidx].
  exists item0, data0, others. split; [exact Hav|].
  rewrite Hidx, first_column_dates.
  - split; [reflexivity|]. apply (Hnodup (item0, data0)). rewrite Hav.
    left. reflexivity.
  - apply Forall_forall. intros av Hin. apply Hnodup. rewrite Hav.
    right. exact Hin.
Qed.

End FrameIndexFacts.

Section AvailabilityFacts.
Context {F : Type} `{NF : Num F}.

Lemma get_ticker_data_for_period_none (data_dir : @DataDir F) (ticker : string)
      (start_date end_date : option Timestamp) :
  get_ticker_data_for_period data_dir ticker start_date end_date = None <->
  load_ticker_data data_dir ticker = None.
Proof.
  unfold get_ticker_data_for_period.
  destruct (load_ticker_data data_dir ticker); split; congruence.
Qed.

Lemma load_ticker_data_none (data_dir : @DataDir F) (ticker : string) :
  load_ticker_data data_dir ticker = None <->
  forall file, dict_get ticker file_mapping = Some file -> data_dir file = None.
Proof.
  unfold load_ticker_data.
  destruct (dict_get ticker file_mapping) as [file|].
  - destruct (data_dir file) as [rows|] eqn:E.
    + split; [discriminate|]. intros Hall.
      specialize (Hall file eq_refl). congruence.
    + split; [|reflexivity]. intros _ f [= <-]. exact E.
  - split; [|reflexivity]. intros _ f Hf. discriminate Hf.
Qed.

(** X13.  [get_portfolio_data] returns [None] exactly when the name is not
    in the catalog or none of the portfolio's tickers has a readable
    file; the period plays no part in it, so a period without any data
    still gives a frame. *)
Theorem get_portfolio_data_none_iff (data_dir : @DataDir F)
        (portfolio_name : string) (start_date end_date : option Timestamp) :
  (get_portfolio_data data_dir portfolio_name start_date end_date = None <->
   forall portfolio,
     dict_get portfolio_name portfolios = Some portfolio ->
     forall item, In item portfolio ->
       forall file, dict_get (fst item) file_mapping = Some file ->
                    data_dir file = None) /\
  (forall start_date' end_date',
      get_portfolio_data data_dir portfolio_name start_date end_date = None <->
      get_portfolio_data data_dir portfolio_name start_date' end_date' = None).
Proof.
  assert (Hiff : forall s e,
             get_portfolio_data data_dir portfolio_name s e = None <->
             forall portfolio,
               dict_get portfolio_name portfolios = Some portfolio ->
               forall item, In item portfolio ->
                 forall file, dict_get (fst item) file_mapping = Some file ->
                              data_dir file = None).
  { intros s e. unfold get_portfolio_data.
    destruct (dict_get portfolio_name portfolios) as [p|].
    - rewrite portfolio_frame_none_iff, fold_join_none_iff, available_nil_iff.
      split.
      + intros Hall q [= <-] item Hin.
        apply load_ticker_data_none, (get_ticker_data_for_period_none _ _ s e).
        apply Hall, Hin.
      + intros Hall item Hin.
        apply get_ticker_data_for_period_none, load_ticker_data_none.
        apply (Hall p eq_refl item Hin).
    - split; [|reflexivity]. intros _ q Hq. discriminate Hq. }
  split; [apply Hiff|]. intros s' e'. rewrite !Hiff. reflexivity.
Qed.

End AvailabilityFacts.

(** ** A one-ticker portfolio follows the price *)

Section PriceTracking.
Open Scope Q_scope.

Lemma growth_factor_none : growth_factor None == 1.
Proof. reflexivity. Qed.

Lemma growth_factor_some (c prev : Q) :
  ~ prev == 0 -> growth_factor (Some (c / prev - 1)) == c / prev.
Proof.
  intros Hprev. unfold growth_factor, row_sum.
  cbn [option_map map fold_left cell_value fisnan NumQ]. q_ops.
  assert (Hlit : @lit Q NumQ 1 == 1) by reflexivity.
  rewrite Hlit. field. exact Hprev.
Qed.

(** The running product of the growth factors telescopes to the ratio of
    the closes. *)
Lemma growth_product_from (c0 : Q) (closes : list Q) :
  ~ c0 == 0 ->
  forall (prev acc : Q),
    ~ prev == 0 -> Forall (fun c => ~ c == 0) closes ->
    acc == prev / c0 ->
    forall i, (i < List.length closes)%nat ->
      nth i (accumulate_from Qmult acc
               (map growth_factor (pct_change_from prev closes))) 0
      == nth i closes 1 / c0.
Proof.
  intros Hc0. induction closes as [|c cs IH]; intros prev acc Hprev Hall Hacc i Hi;
    cbn in Hi; [lia|].
  inversion Hall as [|? ? Hc Hcs]; subst.
  cbn [pct_change_from map accumulate_from]. q_ops.
  assert (Hhead : acc * growth_factor (Some (c / prev - 1)) == c / c0).
  { rewrite (growth_factor_some c Hprev), Hacc. field. split; assumption. }
  destruct i as [|i]; [exact Hhead|].
  cbn [nth]. apply IH; [exact Hc|exact Hcs|exact Hhead|lia].
Qed.

Lemma growth_product (closes : list Q) (i : nat) :
  Forall (fun c => ~ c == 0) closes ->
  (i < List.length closes)%nat ->
  nth i (accumulate Qmult (map growth_factor (pct_change closes))) 0
  == nth i closes 1 / nth 0 closes 1.
Proof.
  destruct closes as [|c0 cs]; intros Hall Hi; cbn in Hi; [lia|].
  inversion Hall as [|? ? Hc0 Hcs]; subst.
  cbn [pct_change map accumulate]. destruct i as [|i].
  - cbn [nth]. rewrite growth_factor_none. field. exact Hc0.
  - cbn [nth]. apply (growth_product_from Hc0); [exact Hc0|exact Hcs| |lia].
    rewrite growth_factor_none. field. exact Hc0.
Qed.

(** X14.  For a portfolio of one ticker with weight 1, read over the whole
    of a file that lists no date twice and has no close of 0: the frame
    holds the file's dates, each once, in ascending order, and the
    cumulative return
    of every row is 100 times the close of the row's date over the close
    of the first date, the value of 100 put into the fund on the first
    date. *)
Theorem single_ticker_cumulative_return_is_price
        (data_dir : @DataDir Q) (ticker file : string)
        (rows : list (Timestamp * Q)) (frame : @PortfolioData Q) :
  dict_get ticker file_mapping = Some file ->
  data_dir file = Some rows ->
  NoDup (map fst rows) ->
  Forall (fun r => ~ snd r == 0) rows ->
  portfolio_frame data_dir [(ticker, 1)] None None = Some frame ->
  exists closes,
    List.length closes = List.length frame /\
    Permutation (combine (map row_date frame) closes) rows /\
    ascending (map row_date frame) /\
    NoDup (map row_date frame) /\
    forall i, (i < List.length rows)%nat ->
      nth i (map cumulative_return frame) 0 ==
      100 * (nth i closes 1 / nth 0 closes 1).
Proof.
  intros Hfile Hdir Hunique Hnz Hframe.
  destruct (portfolio_frame_rows _ _ _ _ Hframe) as (joined & Hfold & ->).
  cbn [fold_left] in Hfold. unfold join_ticker in Hfold. cbn [fst snd] in Hfold.
  unfold get_ticker_data_for_period, load_ticker_data in Hfold.
  rewrite Hfile, Hdir in Hfold. cbv zeta in Hfold. injection Hfold as <-.
  set (df := sort_index rows) in *.
  set (closes := map snd df).
  assert (Hlen : List.length closes = List.length rows).
  { subst closes df. rewrite length_map.
    apply Permutation_length, sort_index_perm. }
  assert (Hclose : Forall (fun c => ~ c == 0) closes).
  { subst closes. apply Forall_map.
    apply (Permutation_Forall (Permutation_sym (sort_index_perm rows))).
    exact Hnz. }
  set (data := combine (map fst df) (pct_change closes)).
  set (joined := map (fun r : Timestamp * @Cell Q => (fst r, [snd r]))
                     (weighted_column 1 data)).
  assert (Hdata : map snd data = pct_change closes).
  { subst data. apply map_snd_combine.
    rewrite pct_change_length. subst closes. rewrite !length_map. lia. }
  assert (Hindex : map fst joined = map fst df).
  { subst joined. rewrite first_column_dates. subst data.
    apply map_fst_combine.
    rewrite pct_change_length. subst closes. rewrite !length_map. lia. }
  assert (Hfactors : map (Qplus 1) (returns_of joined)
                     = map growth_factor (pct_change closes)).
  { rewrite <- Hdata. subst joined. unfold returns_of, weighted_column.
    rewrite !map_map. reflexivity. }
  assert (Hjoined : List.length joined = List.length rows).
  { subst joined data. unfold weighted_column.
    rewrite !length_map, length_combine, pct_change_length.
    subst closes. rewrite !length_map in *. lia. }
  exists closes. rewrite frame_cumulative, frame_dates, Hindex.
  split; [|split; [|split; [|split]]].
  - rewrite length_map, length_combine, cumulative_of_length. lia.
  - subst closes. rewrite combine_fst_snd. apply sort_index_perm.
  - apply sort_index_ascending.
  - apply (Permutation_NoDup
             (Permutation_sym (Permutation_map fst (sort_index_perm rows)))).
    exact Hunique.
  - intros i Hi. unfold cumulative_of, cumprod. rewrite pandas_cum_Q. q_ops.
    change (@of_Z Q NumQ 100%Z) with 100. rewrite Hfactors.
    rewrite (@nth_map_lt Q Q (fun c => c * 100) _ i 0 0)
      by (rewrite accumulate_length, length_map, pct_change_length; lia).
    rewrite growth_product by (exact Hclose || lia). ring.
Qed.

End PriceTracking.

(** ** The further properties at concrete inputs *)

(** The dates of the VT file of [scenario_dir] are all different. *)
Lemma scenario_vt_dates_unique :
  NoDup (map fst [ (day3, 103.02%Q); (day2, 101%Q); (day1, 100%Q) ]).
Proof.
  cbn [map fst].
  repeat (constructor; [cbn; intuition discriminate|]); constructor.
Defined.


(** X10, on the same file restricted to [day2 .. day3]. *)
Lemma get_ticker_data_for_period_rows_scenario :
  exists data,
    get_ticker_data_for_period scenario_dir "VT"%string (Some day2) (Some day3)
    = Some data /\
    exists df,
      load_ticker_data scenario_dir "VT"%string = Some df /\
      (forall r, In r data <->
                 In r df /\ in_period (Some day2) (Some day3) (fst r)) /\
      ascending (map fst data).
Proof.
  eexists. split; [reflexivity|].
  apply (@get_ticker_data_for_period_rows Q NumQ scenario_dir "VT"%string
           (Some day2) (Some day3)).
  reflexivity.
Defined.

(** X11, on the two-fund portfolio over [uneven_dir]. *)
Lemma portfolio_frame_dates_ascending_uneven :
  exists frame,
    portfolio_frame uneven_dir two_fund (Some day1) (Some day3) = Some frame /\
    ascending (map row_date frame) /\
    Forall (in_period (Some day1) (Some day3)) (map row_date frame).
Proof.
  eexists. split; [reflexivity|].
  apply (@portfolio_frame_dates_ascending Q NumQ uneven_dir two_fund
           (Some day1) (Some day3)).
  reflexivity.
Defined.

Lemma uneven_dir_dates_unique :
  forall file rows, uneven_dir file = Some rows -> NoDup (map fst rows).
Proof.
  intros file rows. unfold uneven_dir.
  destruct (String.eqb file "HistoricalPrices_VT.csv"%string);
    [|destruct (String.eqb file "HistoricalPrices_VBTLX.csv"%string)];
    intros [= <-]; cbn [map fst];
    repeat (constructor; [cbn; intuition discriminate|]); constructor.
Qed.

(** X12, on the two-fund portfolio over [uneven_dir], whose files list no
    date twice: the frame has the two dates of VT. *)
Lemma portfolio_frame_index_of_first_ticker_uneven :
  (forall file rows, uneven_dir file = Some rows -> NoDup (map fst rows)) /\
  exists frame,
    portfolio_frame uneven_dir two_fund None None = Some frame /\
    exists item0 data0 others,
      available uneven_dir None None two_fund = (item0, data0) :: others /\
      map row_date frame = map fst data0 /\
      NoDup (map row_date frame).
Proof.
  split; [exact uneven_dir_dates_unique|].
  eexists. split; [reflexivity|].
  apply (@portfolio_frame_index_of_first_ticker Q NumQ uneven_dir two_fund
           None None _ uneven_dir_dates_unique).
  reflexivity.
Defined.

(** X14, on the VT file of [scenario_dir]: closes 100, 101 and 103.02. *)
Lemma single_ticker_cumulative_return_is_price_scenario :
  dict_get "VT"%string file_mapping = Some "HistoricalPrices_VT.csv"%string /\
  scenario_dir "HistoricalPrices_VT.csv"%string
  = Some [ (day3, 103.02%Q); (day2, 101%Q); (day1, 100%Q) ] /\
  NoDup (map fst [ (day3, 103.02%Q); (day2, 101%Q); (day1, 100%Q) ]) /\
  Forall (fun r : Timestamp * Q => ~ snd r == 0)%Q
         [ (day3, 103.02%Q); (day2, 101%Q); (day1, 100%Q) ] /\
  exists frame,
    portfolio_frame scenario_dir [("VT"%string, 1%Q)] None None = Some frame /\
    exists closes,
      List.length closes = List.length frame /\
      Permutation (combine (map row_date frame) closes)
                  [ (day3, 103.02%Q); (day2, 101%Q); (day1, 100%Q) ] /\
      ascending (map row_date frame) /\
      NoDup (map row_date frame) /\
      forall i, (i < 3)%nat ->
        (nth i (map cumulative_return frame) 0 ==
         100 * (nth i closes 1 / nth 0 closes 1))%Q.
Proof.
  assert (Hnz : Forall (fun r : Timestamp * Q => ~ snd r == 0)%Q
                       [ (day3, 103.02%Q); (day2, 101%Q); (day1, 100%Q) ])
    by (repeat constructor; cbn; intros Habs; discriminate Habs).
  split; [reflexivity|]. split; [reflexivity|].
  split; [exact scenario_vt_dates_unique|]. split; [exact Hnz|].
  eexists. split; [reflexivity|].
  apply (@single_ticker_cumulative_return_is_price scenario_dir "VT"%string
           "HistoricalPrices_VT.csv"%string
           [ (day3, 103.02%Q); (day2, 101%Q); (day1, 100%Q) ] _
           eq_refl eq_refl scenario_vt_dates_unique Hnz).
  reflexivity.
Defined.

(** ** The date that receives a month's contribution *)

Section EarliestDate.
Context {F : Type} `{NF : Num F}.






End EarliestDate.

(** ** The summary under the growth chart *)

Section SummaryFacts.

Lemma last_as_nth {A : Type} (l : list A) (d : A) :
  last l d = nth (List.length l - 1) l d.
Proof.
  induction l as [|a l IH]; [reflexivity|].
  destruct l as [|b l]; [reflexivity|].
  change (last (a :: b :: l) d) with (last (b :: l) d). rewrite IH.
  cbn [List.length]. rewrite !Nat.sub_succ, !Nat.sub_0_r. reflexivity.
Qed.

Lemma trajectory_lengths {F : Type} `{NF : Num F}
      (row : PortfolioRow) (rows : list PortfolioRow) (init mc : F)
      (inv : Investments) :
  simulate_growth (Some (row :: rows)) init mc = Returned (Some inv) ->
  List.length (portfolio_value inv) = S (List.length rows) /\
  List.length (cumulative_contribution inv) = S (List.length rows).
Proof.
  rewrite simulate_growth_columns. intros [= <-].
  cbn [portfolio_value cumulative_contribution].
  destruct (contribution_column_shape (row_date row) (map row_date rows) init mc)
    as (Hlen & _). rewrite length_map in Hlen.
  destruct (value_run_invariant (map portfolio_return (row :: rows))
              (contribution_column (map row_date (row :: rows)) init mc)
              init (n := List.length (row :: rows))
              (k := List.length (row :: rows)) (le_n _))
    as (Hpv & _).
  split; [exact Hpv|]. unfold cumsum. rewrite pandas_cum_length. exact Hlen.
Qed.

Open Scope Q_scope.

(** X16.  With a positive initial investment, a non-negative monthly
    contribution and no negative daily return after the first row, the
    summary of the run shows a total invested of at least the initial
    investment, a profit that is not negative and an ROI that is not
    negative. *)
Theorem summary_without_loss
        (row : PortfolioRow) (rows : list PortfolioRow) (init mc : Q) :
  0 < init -> 0 <= mc ->
  Forall (fun r => 0 <= portfolio_return r) rows ->
  exists inv,
    simulate_growth (Some (row :: rows)) init mc = Returned (Some inv) /\
    init <= total_invested (summarize inv) /\
    0 <= profit (summarize inv) /\
    0 <= roi (summarize inv).
Proof.
  intros Hinit Hmc Hrets.
  destruct (trajectory_columns row rows init mc) as (inv & Hrun & _).
  exists inv. split; [exact Hrun|].
  destruct (trajectory_lengths Hrun) as [Hpvlen Hcclen].
  unfold summarize. cbn [total_invested profit roi]. q_ops.
  rewrite !last_as_nth, Hpvlen, Hcclen.
  replace (S (List.length rows) - 1)%nat with (List.length rows) by lia.
  destruct (contributions_between Hrun (Qlt_le_weak _ _ Hinit) Hmc Hrets
              (Nat.lt_succ_diag_r (List.length rows))) as [Hlo Hle].
  revert Hlo Hle.
  generalize (nth (List.length rows) (cumulative_contribution inv) 0)
             (nth (List.length rows) (portfolio_value inv) 0).
  intros c v Hlo Hle.
  assert (Hc : 0 < c) by (exact (Qlt_le_trans _ _ _ Hinit Hlo)).
  assert (Hp : 0 <= v - c) by (clear - Hle; lra).
  split; [exact Hlo|]. split; [exact Hp|].
  change (@of_Z Q NumQ 100%Z) with 100.
  apply Qmult_le_0_compat; [|discriminate].
  apply Qle_shift_div_l; [exact Hc|]. rewrite Qmult_0_l. exact Hp.
Qed.

End SummaryFacts.


(** X16, on three days of returns 1 %, 2 % and 0. *)
Lemma summary_without_loss_rising :
  (0 < 10000 /\ 0 <= 500)%Q /\
  Forall (fun r => 0 <= portfolio_return r)%Q (tl rising_days) /\
  exists inv,
    simulate_growth (Some rising_days) 10000%Q 500%Q = Returned (Some inv) /\
    (10000 <= total_invested (summarize inv) /\
     0 <= profit (summarize inv) /\
     0 <= roi (summarize inv))%Q.
Proof.
  assert (H1 : (0 < 10000)%Q) by reflexivity.
  assert (H2 : (0 <= 500)%Q) by (vm_compute; discriminate).
  assert (H3 : Forall (fun r => 0 <= portfolio_return r)%Q (tl rising_days))
    by (repeat constructor; vm_compute; discriminate).
  split; [split; assumption|]. split; [exact H3|].
  unfold rising_days in *.
  match goal with |- context [Some (?r :: ?rs)] =>
    exact (@summary_without_loss r rs 10000%Q 500%Q H1 H2 H3) end.
Defined.

Example summary_rising_values :
  exists inv,
    simulate_growth (Some rising_days) 10000%Q 500%Q = Returned (Some inv) /\
    Qred (final_value (summarize inv)) = 10700%Q /\
    Qred (total_invested (summarize inv)) = 10500%Q /\
    Qred (profit (summarize inv)) = 200%Q.
Proof.
  eexists. split; [reflexivity|]. repeat split; vm_compute; reflexivity.
Qed.

(** ** A bound on the maximum drawdown *)

Section DrawdownBound.
Open Scope Q_scope.

(** X17.  For a non-empty cumulative return series of positive values the
    maximum drawdown is the drawdown of one of the rows and lies above
    -1: no more than the whole of a peak can be lost. *)
Theorem max_drawdown_above_minus_one (cum : list Q) :
  cum <> [] ->
  Forall (fun c => 0 < c) cum ->
  exists m, max_drawdown cum = Some m /\
            In m (drawdowns cum) /\ -1 < m.
Proof.
  intros Hne Hpos. unfold max_drawdown.
  pose proof (cummax_pairs None Hpos) as Hpairs. fold (cummax cum) in Hpairs.
  assert (Hterms : Forall (fun d => -1 < d) (drawdowns cum)).
  { unfold drawdowns. apply Forall_map. revert Hpairs. apply Forall_impl.
    intros p [Hp Hle]. q_ops.
    assert (Hm : 0 < snd p) by (exact (Qlt_le_trans _ _ _ Hp Hle)).
    assert (Hdiv : 0 < fst p / snd p).
    { apply Qlt_shift_div_l; [exact Hm|]. rewrite Qmult_0_l. exact Hp. }
    revert Hdiv. generalize (fst p / snd p). intros q Hq. lra. }
  destruct (drawdowns cum) as [|d ds] eqn:Ed.
  - exfalso. apply Hne. destruct cum as [|c t]; [reflexivity|].
    unfold drawdowns, cummax in Ed. rewrite cummax_from_cons in Ed.
    discriminate Ed.
  - destruct (series_min_nonempty d ds) as (m & Hmin & Hin & _).
    exists m. split; [exact Hmin|]. split; [exact Hin|].
    rewrite Forall_forall in Hterms. apply Hterms, Hin.
Qed.

End DrawdownBound.

(** X17, on a series that rises, falls by a tenth and recovers. *)
Lemma max_drawdown_above_minus_one_example :
  [100; 110; 99; 120]%Q <> [] /\
  Forall (fun c => 0 < c)%Q [100; 110; 99; 120]%Q /\
  exists m, max_drawdown [100; 110; 99; 120]%Q = Some m /\
            In m (drawdowns [100; 110; 99; 120]%Q) /\ (-1 < m)%Q.
Proof.
  assert (Hpos : Forall (fun c => 0 < c)%Q [100; 110; 99; 120]%Q)
    by (repeat (constructor; [reflexivity|]); constructor).
  split; [discriminate|]. split; [exact Hpos|].
  apply (@max_drawdown_above_minus_one [100; 110; 99; 120]%Q); [discriminate|].
  exact Hpos.
Defined.
